(** * Spotify analytics pipeline: cleaning, quality report, sinks, dashboard filter

    A shallow embedding of the table transforms of the repository:
    - [clean_data] and [validate_cleaned_data]  (spotify_analysis.py)
    - [infer_mysql_type], [load_csv_to_mysql]   (csv_to_mysql.py)
    - [read_sqlite], [migrate_to_mysql]         (migrate_sqlite_to_mysql.py)
    - the sidebar filter [df_filtered]          (app.py)

    A pandas DataFrame is a list of named, typed columns of equal length,
    with the NumPy dtypes that [pd.read_csv] and [pd.read_sql] give.
    Finite floating-point numbers are idealised as exact rationals (no
    rounding, no overflow); the two infinities, the float NaN and Python's
    None are entries of their own. A Python string is held as its UTF-8
    bytes. *)

From stdpp Require Import base list.
From Stdlib Require Import String Ascii ZArith QArith Lia Bool Arith List DecimalString.
Import ListNotations.
Open Scope string_scope.
Open Scope nat_scope.
Open Scope list_scope.

Infix "+++" := String.append (right associativity, at level 60).

(* ================================================================== *)
(** * Part I: definitions *)
(* ================================================================== *)

(** ** Data model *)

(** The dtypes the scripts compare against, and the rest in two kinds:
    the other numeric NumPy dtypes (float32, int32, uint8, ...) and the
    dtypes that are neither numeric nor object (datetime64, ...). *)
Inductive dtype : Type :=
| DObject
| DInt64
| DFloat64
| DBool
| DOther
| DOtherNumeric.

(** [pd.api.types.is_numeric_dtype]: the integer and float dtypes and bool
    are numeric. *)
Definition is_numeric_dtype (d : dtype) : bool :=
  match d with
  | DInt64 | DFloat64 | DBool | DOtherNumeric => true
  | DObject | DOther => false
  end.

Definition is_object_dtype (d : dtype) : bool :=
  match d with
  | DObject => true
  | _ => false
  end.

(** One entry of a column: the float NaN ([NA]), a text, a finite number,
    Python's None (in object columns, as [pd.read_sql] gives for NULL), or
    an infinity with its sign. *)
Inductive cell : Type :=
| NA
| Str (s : string)
| Num (q : Q)
| PyNone
| Inf (positive : bool).

(** A float that is not NaN. *)
Inductive number : Type :=
| Finite (q : Q)
| Infinite (positive : bool).

Definition cell_of_number (x : number) : cell :=
  match x with
  | Finite q => Num q
  | Infinite b => Inf b
  end.

(** A pandas Series: its name, dtype and values. *)
Record column : Type := mkColumn {
  cname : string;
  cdtype : dtype;
  cells : list cell
}.

(** A DataFrame with unique column labels, in column order. *)
Definition frame : Type := list column.

(** What pandas leaves to the values: how [pd.to_numeric] reads a string
    as a number ([None] when it does not parse and is coerced to NaN), how
    [astype(str)] prints a finite number, and which numeric dtype
    [pd.to_numeric] gives the coerced column (int64 when every entry is an
    integer, float64 otherwise, ...). *)
Class NumericText : Type := {
  parse_number : string -> option number;
  repr_number : Q -> string;
  coerced_dtype : list cell -> dtype;
  coerced_dtype_numeric : forall l, is_numeric_dtype (coerced_dtype l) = true
}.

(** ** Cell and Series primitives *)

(** [pd.isna]: NaN and None are missing; an infinity is not. *)
Definition isna (c : cell) : bool :=
  match c with
  | NA | PyNone => true
  | _ => false
  end.

Definition notna (c : cell) : bool := negb (isna c).

(** Equality of two entries as the hash table behind [Series.duplicated]
    has it, and as [==] has it against a text: NaN matches NaN, None
    matches None, and NaN does not match None. *)
Definition cell_eqb (a b : cell) : bool :=
  match a, b with
  | NA, NA => true
  | PyNone, PyNone => true
  | Str s, Str t => String.eqb s t
  | Num p, Num q => Qeq_bool p q
  | Inf s, Inf t => Bool.eqb s t
  | _, _ => false
  end.

(** Equality of two entries after [factorize], which gives every missing
    entry one and the same code: NaN matches None as well. *)
Definition cell_matches (a b : cell) : bool :=
  (isna a && isna b) || cell_eqb a b.

Fixpoint row_eqb (eqb : cell -> cell -> bool) (r1 r2 : list cell) : bool :=
  match r1, r2 with
  | [], [] => true
  | a :: r1', b :: r2' => eqb a b && row_eqb eqb r1' r2'
  | _, _ => false
  end.

Definition mem_str (x : string) (l : list string) : bool :=
  existsb (String.eqb x) l.

(** [s.isnull().sum()], [s.isnull().any()], [s.notna().sum()], [len(s)]. *)
Definition isnull_sum (s : column) : nat := length (List.filter isna (cells s)).
Definition isnull_any (s : column) : bool := existsb isna (cells s).
Definition notna_sum (s : column) : nat := length (List.filter notna (cells s)).
Definition len_series (s : column) : nat := length (cells s).

(** [s.dropna()], [s.head(n)]. *)
Definition dropna (s : column) : column :=
  mkColumn (cname s) (cdtype s) (List.filter notna (cells s)).

Definition head (n : nat) (s : column) : column :=
  mkColumn (cname s) (cdtype s) (firstn n (cells s)).

(** [s.fillna(text)]: a numeric column that receives text becomes object. *)
Definition fill_cell (v : cell) (c : cell) : cell :=
  if isna c then v else c.

Definition fillna_text (v : string) (s : column) : column :=
  mkColumn (cname s)
           (if isnull_any s then DObject else cdtype s)
           (map (fill_cell (Str v)) (cells s)).

(** [s.fillna(x)] for a float [x]; [fillna(NaN)] changes nothing. *)
Definition fillna_num (m : option number) (s : column) : column :=
  match m with
  | Some x => mkColumn (cname s) (cdtype s) (map (fill_cell (cell_of_number x)) (cells s))
  | None => s
  end.

(** The characters of a text: a byte of the form 10xxxxxx continues the
    character before it. [str.len()] counts characters, not bytes. *)
Definition is_continuation (b : ascii) : bool :=
  match b with
  | Ascii _ _ _ _ _ _ b6 b7 => b7 && negb b6
  end.

Definition continues (s : string) : bool :=
  match s with
  | String b _ => is_continuation b
  | EmptyString => false
  end.

Fixpoint chars (s : string) : list string :=
  match s with
  | EmptyString => []
  | String b s' =>
      match chars s' with
      | chunk :: rest =>
          if continues s' then String b chunk :: rest
          else String b EmptyString :: chunk :: rest
      | [] => [String b EmptyString]
      end
  end.

Definition char_length (s : string) : nat := length (chars s).

Section Pandas.
Context {NT : NumericText}.

(** [s.astype(str)]: text stays, a number is printed, NaN prints as 'nan'
    and None as 'None'. *)
Definition astype_str_cell (c : cell) : cell :=
  match c with
  | NA => Str "nan"
  | PyNone => Str "None"
  | Str s => Str s
  | Num q => Str (repr_number q)
  | Inf true => Str "inf"
  | Inf false => Str "-inf"
  end.

Definition astype_str (s : column) : column :=
  mkColumn (cname s) DObject (map astype_str_cell (cells s)).

(** [pd.to_numeric(s, errors='coerce')]. A numeric column is returned as it
    is; otherwise each text entry is parsed, what does not parse becomes
    NaN, and so does None. *)
Definition to_numeric_cell (c : cell) : cell :=
  match c with
  | Str s => match parse_number s with
             | Some x => cell_of_number x
             | None => NA
             end
  | PyNone => NA
  | _ => c
  end.

Definition to_numeric (s : column) : column :=
  if is_numeric_dtype (cdtype s) then s
  else mkColumn (cname s) (coerced_dtype (cells s)) (map to_numeric_cell (cells s)).

End Pandas.

(** [s.median()]: missing entries are skipped; the middle of the sorted
    values, or the mean of the two middle ones; NaN ([None]) when nothing is
    left, and when the two middle values are -inf and +inf, whose mean is
    NaN. *)
Definition number_le (x y : number) : bool :=
  match x, y with
  | Infinite false, _ => true
  | _, Infinite true => true
  | Finite p, Finite q => Qle_bool p q
  | _, _ => false
  end.

Fixpoint insert_sorted (x : number) (l : list number) : list number :=
  match l with
  | [] => [x]
  | y :: l' => if number_le x y then x :: l else y :: insert_sorted x l'
  end.

Definition sort_values (l : list number) : list number := fold_right insert_sorted [] l.

Definition numbers_of (l : list cell) : list number :=
  flat_map (fun c => match c with
                     | Num q => [Finite q]
                     | Inf b => [Infinite b]
                     | _ => []
                     end) l.

(** The mean of two floats that are not NaN; [None] is NaN. *)
Definition mean_of_two (x y : number) : option number :=
  match x, y with
  | Finite p, Finite q => Some (Finite (Qred ((p + q) / (2 # 1))%Q))
  | Infinite a, Infinite b => if Bool.eqb a b then Some (Infinite a) else None
  | Infinite a, Finite _ => Some (Infinite a)
  | Finite _, Infinite b => Some (Infinite b)
  end.

Definition median_of (l : list number) : option number :=
  let sorted := sort_values l in
  let n := length sorted in
  if n =? 0 then None
  else if Nat.odd n then Some (nth (n / 2) sorted (Finite 0))
  else mean_of_two (nth (n / 2 - 1) sorted (Finite 0)) (nth (n / 2) sorted (Finite 0)).

Definition median (s : column) : option number := median_of (numbers_of (cells s)).

Definition is_finite (x : number) : Prop :=
  match x with
  | Finite _ => True
  | Infinite _ => False
  end.

(** ** DataFrame primitives *)

(** [df.columns], [col in df.columns], [df[col]], [df[col] = s], [len(df)]. *)
Definition columns (df : frame) : list string := map cname df.

Definition has_col (name : string) (df : frame) : bool := mem_str name (columns df).

Definition get_col (name : string) (df : frame) : option column :=
  find (fun c => String.eqb name (cname c)) df.

Definition rename (name : string) (s : column) : column :=
  mkColumn name (cdtype s) (cells s).

Fixpoint set_col (name : string) (s : column) (df : frame) : frame :=
  match df with
  | [] => [rename name s]
  | c :: df' =>
      if String.eqb name (cname c) then rename name s :: df'
      else c :: set_col name s df'
  end.

Definition len (df : frame) : nat :=
  match df with
  | [] => 0
  | c :: _ => length (cells c)
  end.

(** [df.drop(columns=names)]. *)
Definition drop_columns (names : list string) (df : frame) : frame :=
  List.filter (fun c => negb (mem_str (cname c) names)) df.

(** Row [i] of the table, and all rows in order. *)
Definition row_at (df : frame) (i : nat) : list cell :=
  map (fun c => nth i (cells c) NA) df.

Definition rows (df : frame) : list (list cell) := map (row_at df) (seq 0 (len df)).

(** Boolean-mask row selection [df[mask]]. *)
Fixpoint select {A : Type} (mask : list bool) (l : list A) : list A :=
  match mask, l with
  | b :: mask', x :: l' => if b then x :: select mask' l' else select mask' l'
  | _, _ => []
  end.

Definition select_rows (mask : list bool) (df : frame) : frame :=
  map (fun c => mkColumn (cname c) (cdtype c) (select mask (cells c))) df.

(** [duplicated()]: an entry is a duplicate when an earlier one equals it. *)
Fixpoint duplicated_from {A : Type} (eqb : A -> A -> bool) (seen l : list A) : list bool :=
  match l with
  | [] => []
  | x :: l' => existsb (fun y => eqb y x) seen :: duplicated_from eqb (seen ++ [x]) l'
  end.

Definition duplicated {A : Type} (eqb : A -> A -> bool) (l : list A) : list bool :=
  duplicated_from eqb [] l.

(** [df.duplicated()] over all columns. A table of one column goes
    through [Series.duplicated] and its hash table; with more columns each
    one is factorized first, which makes all missing entries alike. *)
Definition row_equality (df : frame) : cell -> cell -> bool :=
  match df with
  | [_] => cell_eqb
  | _ => cell_matches
  end.

Definition duplicated_rows (df : frame) : list bool :=
  duplicated (row_eqb (row_equality df)) (rows df).

(** [df.drop_duplicates(subset=[key])] and [df.drop_duplicates()]; both keep
    the first occurrence. With one key the test is [df[key].duplicated()]. *)
Definition drop_duplicates_subset (key : string) (df : frame) : frame :=
  match get_col key df with
  | Some s => select_rows (map negb (duplicated cell_eqb (cells s))) df
  | None => df
  end.

Definition drop_duplicates (df : frame) : frame :=
  select_rows (map negb (duplicated_rows df)) df.

(** [list(dict.fromkeys(l))]: first occurrences, in order. *)
Definition dedupe_keys (l : list string) : list string :=
  select (map negb (duplicated String.eqb l)) l.

(** The statement pattern [if col in df.columns: df[col] = f(df[col])]. *)
Definition update_col (col : string) (f : column -> column) (df : frame) : frame :=
  match get_col col df with
  | Some s => set_col col (f s) df
  | None => df
  end.

(** ** clean_data (spotify_analysis.py) *)

Definition text_columns : list string := ["artists"; "album_name"; "track_name"].

Definition declared_numeric : list string :=
  ["danceability"; "energy"; "loudness"; "speechiness"; "acousticness";
   "instrumentalness"; "liveness"; "valence"; "tempo"; "duration_ms";
   "key"; "mode"; "time_signature"; "popularity"].

Definition audio_features : list string :=
  ["danceability"; "energy"; "valence"; "loudness"; "speechiness";
   "acousticness"; "instrumentalness"; "liveness"].

(** Step 1: drop 'Unnamed: 0' if present. *)
Definition drop_unnamed (df : frame) : frame :=
  if has_col "Unnamed: 0" df then drop_columns ["Unnamed: 0"] df else df.

(** Step 2: fill missing text with 'Unknown'. *)
Definition fill_text (df : frame) : frame :=
  fold_left (fun d col => update_col col (fillna_text "Unknown") d) text_columns df.

(** Step 4: drop duplicates by 'track_id' if available, else exact ones. *)
Definition remove_duplicates (df : frame) : frame :=
  if has_col "track_id" df then drop_duplicates_subset "track_id" df
  else drop_duplicates df.

Section Cleaning.
Context {NT : NumericText}.

(** Step 3, the heuristic: [df[col].dropna().astype(str).head(20)] and the
    test [coerced.notna().sum() >= max(1, len(sample) // 2)]. *)
Definition sample_of (s : column) : column := head 20 (astype_str (dropna s)).

Definition converts_well (s : column) : bool :=
  let sample := sample_of s in
  if len_series sample =? 0 then false
  else
    let coerced := to_numeric sample in
    Nat.max 1 (len_series sample / 2) <=? notna_sum coerced.

(** A sampled value counts when its text reads as a number. *)
Definition parses_as_number (c : cell) : bool :=
  match astype_str_cell c with
  | Str t => match parse_number t with Some _ => true | None => false end
  | _ => false
  end.

Definition heuristic_step (df : frame) (cands : list string) (col : string) : list string :=
  if mem_str col cands then cands
  else
    match get_col col df with
    | Some s =>
        if is_object_dtype (cdtype s) && converts_well s then cands ++ [col]
        else cands
    | None => cands
    end.

Definition numeric_candidates (df : frame) : list string :=
  dedupe_keys (fold_left (heuristic_step df) (columns df) declared_numeric).

(** Step 3, the coercion: to numeric, then the median where it is defined. *)
Definition coerce_and_impute (s : column) : column :=
  let s1 := to_numeric s in
  match median s1 with
  | Some q => fillna_num (Some q) s1
  | None => s1
  end.

Definition coerce_candidates (df : frame) : frame :=
  fold_left (fun d col => update_col col coerce_and_impute d) (numeric_candidates df) df.

(** Step 5: the audio features once more. *)
Definition ensure_numeric (s : column) : column :=
  let s1 := to_numeric s in
  if isnull_any s1 then fillna_num (median s1) s1 else s1.

Definition ensure_audio_features (df : frame) : frame :=
  fold_left (fun d col => update_col col ensure_numeric d) audio_features df.

Definition clean_data (df : frame) : frame :=
  let df := drop_unnamed df in
  let df := fill_text df in
  let df := coerce_candidates df in
  let df := remove_duplicates df in
  ensure_audio_features df.

End Cleaning.

(** ** validate_cleaned_data (spotify_analysis.py) *)

Record quality_report : Type := mkReport {
  total_rows : nat;
  total_columns : nat;
  missing_values : list (string * nat);
  duplicates : nat;
  duplicate_tracks : nat;
  column_types : list (string * dtype);
  issues : list string
}.

Definition critical_cols : list string := ["track_id"; "artists"; "track_name"; "popularity"].

Definition validated_audio_features : list string :=
  ["danceability"; "energy"; "valence"; "loudness"; "speechiness";
   "acousticness"; "instrumentalness"; "liveness"; "tempo"].

(** The marks that open each message, byte for byte as in the source file. *)
Definition warning_mark : string := "âš ï¸  ".
Definition passed_mark : string := "âœ… ".

(** How an f-string prints a count and a list of names. *)
Definition string_of_nat (n : nat) : string := NilEmpty.string_of_uint (Nat.to_uint n).

Definition repr_names (l : list string) : string :=
  "[" +++ String.concat ", " (map (fun s => "'" +++ s +++ "'") l) +++ "]".

Definition count_true (l : list bool) : nat := length (List.filter (fun b => b) l).

Definition duplicate_ids_issue (n : nat) : string :=
  warning_mark +++ "Found " +++ string_of_nat n +++ " duplicate track_ids".

Definition missing_issue (col : string) (missing : nat) : string :=
  warning_mark +++ "Column '" +++ col +++ "' has " +++ string_of_nat missing +++ " missing values".

Definition non_numeric_issue (cols : list string) : string :=
  warning_mark +++ "Audio features not numeric: " +++ repr_names cols.

Definition unnamed_issue : string :=
  warning_mark +++ "'Unnamed: 0' column still present (should be dropped)".

Definition passed_issue : string := passed_mark +++ "Data quality checks passed".

(** The check of one critical column, appending to the issues so far. *)
Definition check_critical (df : frame) (found : list string) (col : string) : list string :=
  match get_col col df with
  | Some s =>
      let missing := isnull_sum s in
      if 0 <? missing then found ++ [missing_issue col missing] else found
  | None => found
  end.

Definition non_numeric_audio (df : frame) : list string :=
  List.filter (fun col =>
                 match get_col col df with
                 | Some s => negb (is_numeric_dtype (cdtype s))
                 | None => false
                 end) validated_audio_features.

Definition validate_cleaned_data (df : frame) : quality_report :=
  let dup_tracks :=
    match get_col "track_id" df with
    | Some s => count_true (duplicated cell_eqb (cells s))
    | None => 0
    end in
  let found := if 0 <? dup_tracks then [duplicate_ids_issue dup_tracks] else [] in
  let found := fold_left (check_critical df) critical_cols found in
  let found :=
    match non_numeric_audio df with
    | [] => found
    | cols => found ++ [non_numeric_issue cols]
    end in
  let found := if has_col "Unnamed: 0" df then found ++ [unnamed_issue] else found in
  let found :=
    match found with
    | [] => [passed_issue]
    | _ => found
    end in
  {| total_rows := len df;
     total_columns := length (columns df);
     missing_values := map (fun c => (cname c, isnull_sum c)) df;
     duplicates := count_true (duplicated_rows df);
     duplicate_tracks := dup_tracks;
     column_types := map (fun c => (cname c, cdtype c)) df;
     issues := found |}.

(** Pairs of rows, the earlier before the later, that carry equal entries:
    what "one duplicated identifier" counts. *)
Fixpoint equal_pairs_from (seen l : list cell) : nat :=
  match l with
  | [] => 0
  | x :: l' =>
      length (List.filter (fun y => cell_eqb y x) seen) + equal_pairs_from (seen ++ [x]) l'
  end.

Definition equal_pairs (l : list cell) : nat := equal_pairs_from [] l.

(** ** The sidebar filter (app.py) *)

(** [df.to_dict('records')]: each row as its (column, value) pairs. *)
Definition record : Type := list (string * cell).

Definition record_at (df : frame) (i : nat) : record :=
  map (fun c => (cname c, nth i (cells c) NA)) df.

Definition records (df : frame) : list record := map (record_at df) (seq 0 (len df)).

Definition field (name : string) (r : record) : cell :=
  match find (fun p => String.eqb name (fst p)) r with
  | Some p => snd p
  | None => NA
  end.

(** [popularity >= a] and [popularity <= b] on one entry; a comparison
    with NaN is false. *)
Definition cell_ge (c : cell) (a : Z) : bool :=
  match c with
  | Num q => Qle_bool (inject_Z a) q
  | Inf positive => positive
  | _ => false
  end.

Definition cell_le (c : cell) (b : Z) : bool :=
  match c with
  | Num q => Qle_bool q (inject_Z b)
  | Inf positive => negb positive
  | _ => false
  end.

Section Dashboard.
(** [Series.str.contains(pattern, case=False, na=False)] on one text, for
    a search text that is a valid regular expression; the exceptions of
    [str.contains] (an invalid pattern, a column that is not text) are not
    modelled. *)
Variable str_contains : string -> string -> bool.

Definition contains_cell (pattern : string) (c : cell) : bool :=
  match c with
  | Str t => str_contains pattern t
  | _ => false
  end.

(** Lines 119-124 of app.py; [None] is the KeyError of a missing column. *)
Definition df_filtered (df_all : frame) (selected_genre artist_search : string)
                       (pop_range : Z * Z) : option frame :=
  let df := df_all in
  match
    (if negb (String.eqb selected_genre "All") then
       match get_col "track_genre" df with
       | Some s => Some (select_rows (map (fun c => cell_eqb c (Str selected_genre)) (cells s)) df)
       | None => None
       end
     else Some df)
  with
  | None => None
  | Some df =>
      match
        (if negb (String.eqb artist_search "") then
           match get_col "artists" df with
           | Some s => Some (select_rows (map (contains_cell artist_search) (cells s)) df)
           | None => None
           end
         else Some df)
      with
      | None => None
      | Some df =>
          match get_col "popularity" df with
          | Some s =>
              Some (select_rows
                      (map (fun c => cell_ge c (fst pop_range) && cell_le c (snd pop_range))
                           (cells s)) df)
          | None => None
          end
      end
  end.

End Dashboard.

(** All columns have as many entries as the table has rows. *)
Definition rectangular (df : frame) : Prop :=
  Forall (fun c => length (cells c) = len df) df.

(** A column the imputation is done with: numeric, and either without a
    missing value or without a single number to take a median of. *)
Definition settled (s : column) : Prop :=
  is_numeric_dtype (cdtype s) = true /\
  (isnull_any s = false \/ numbers_of (cells s) = []).

(** Columns of one length [n]; the table has [n] rows when it has a column. *)
Definition uniform (n : nat) (df : frame) : Prop :=
  Forall (fun c => length (cells c) = n) df.

(** [df.iloc[1:]]: the table without its first row. *)
Definition iloc_tail (df : frame) : frame :=
  map (fun c => mkColumn (cname c) (cdtype c) (tl (cells c))) df.

(** The row predicate of the filter: the genre is [g] and the popularity
    lies in [a, b], both ends included. *)
Definition genre_and_popularity (g : string) (a b : Z) (r : record) : bool :=
  cell_eqb (field "track_genre" r) (Str g) &&
  (cell_ge (field "popularity" r) a && cell_le (field "popularity" r) b).

(** ** MySQL sink (csv_to_mysql.py, migrate_sqlite_to_mysql.py) *)

Inductive mysql_type : Type :=
| VARCHAR (n : Z)
| BIGINT
| DOUBLE
| BOOLEAN
| TEXT.

Definition render_type (t : mysql_type) : string :=
  match t with
  | VARCHAR n => "VARCHAR(" +++ NilEmpty.string_of_int (Z.to_int n) +++ ")"
  | BIGINT => "BIGINT"
  | DOUBLE => "DOUBLE"
  | BOOLEAN => "BOOLEAN"
  | TEXT => "TEXT"
  end.

(** [infer_mysql_type(dtype, max_len)]; [if max_len] is false for [None]
    and for 0. *)
Definition infer_mysql_type (d : dtype) (max_len : option Z) : mysql_type :=
  match d with
  | DObject =>
      let col_len :=
        match max_len with
        | Some n => if (n =? 0)%Z then 255%Z else Z.min (Z.max (n + 10) 50) 500
        | None => 255%Z
        end in
      VARCHAR col_len
  | DInt64 => BIGINT
  | DFloat64 => DOUBLE
  | DBool => BOOLEAN
  | DOther | DOtherNumeric => TEXT
  end.

Definition str_len_cell (c : cell) : nat :=
  match c with
  | Str t => char_length t
  | _ => 0
  end.

Inductive exn : Type :=
| MySQLError
| ValueError
| FileNotFoundError
| DatabaseError.

Inductive outcome (A : Type) : Type :=
| Returned (a : A)
| Raised (e : exn).
Arguments Returned {A} a.
Arguments Raised {A} e.

(** What goes to the server as the parameters of one INSERT. *)
Inductive param : Type :=
| SqlNull
| Value (c : cell).

Inductive statement : Type :=
| DropTable (table : string)
| CreateTable (sql : string)
| Insert (values : list param)
| Commit
| Rollback.

(** One table on the server as the connection sees it: the committed rows,
    the rows of the open transaction, and every statement the server has
    accepted so far. *)
Record connection : Type := mkConnection {
  stored : list (list param);
  pending : list (list param);
  sent : list statement
}.

(** DROP TABLE IF EXISTS, CREATE TABLE, commit and rollback on a server
    that accepts them; the refusals modelled are those of an INSERT and of
    a CREATE TABLE with VARCHAR(nan). *)
Definition execute_drop (table : string) (conn : connection) : connection :=
  mkConnection [] [] (sent conn ++ [DropTable table]).

Definition execute_create (sql : string) (conn : connection) : connection :=
  mkConnection (stored conn) (pending conn) (sent conn ++ [CreateTable sql]).

Definition commit (conn : connection) : connection :=
  mkConnection (stored conn ++ pending conn) [] (sent conn ++ [Commit]).

Definition rollback (conn : connection) : connection :=
  mkConnection (stored conn) [] (sent conn ++ [Rollback]).

(** [range(0, total, step)] and [df.iloc[i:j]] on the rows. *)
Definition range_step (total step : nat) : list nat :=
  map (fun k => k * step) (seq 0 ((total + step - 1) / step)).

Definition iloc {A : Type} (i j : nat) (l : list A) : list A := firstn (j - i) (skipn i l).

Definition batch_size : nat := 1000.

Definition batches {A : Type} (size : nat) (l : list A) : list (list A) :=
  map (fun i => iloc i (i + size) l) (range_step (length l) size).

(** [tuple(None if pd.isna(v) else v for v in row)] and [tuple(row)]. *)
Definition values_csv (row : list cell) : list param :=
  map (fun v => if isna v then SqlNull else Value v) row.

Definition values_raw (row : list cell) : list param := map Value row.

Section Sink.
Context {NT : NumericText}.
(** Whether the server takes an INSERT with these values; a refusal is a
    [mysql.connector.Error]. *)
Variable insert_ok : list param -> bool.

(** [df[col].astype(str).str.len().max()]: NaN on a column without rows. *)
Definition max_str_len (s : column) : option nat :=
  match cells s with
  | [] => None
  | _ => Some (list_max (map str_len_cell (cells (astype_str s))))
  end.

(** The column type [load_csv_to_mysql] writes; [int(max_len)] raises
    ValueError on NaN. *)
Definition column_type_csv (s : column) : outcome mysql_type :=
  match cdtype s with
  | DObject =>
      match max_str_len s with
      | Some max_len => Returned (VARCHAR (Z.min (Z.max (Z.of_nat max_len + 100) 255) 65535))
      | None => Raised ValueError
      end
  | DInt64 => Returned BIGINT
  | DFloat64 => Returned DOUBLE
  | DBool => Returned BOOLEAN
  | DOther | DOtherNumeric => Returned TEXT
  end.

(** The column type [migrate_to_mysql] writes. On a column without rows the
    length is NaN, the definition reads VARCHAR(nan), and CREATE TABLE is
    refused by the server: no type is declared. *)
Definition column_type_migrate (s : column) : outcome mysql_type :=
  match cdtype s with
  | DObject =>
      match max_str_len s with
      | Some max_len => Returned (VARCHAR (Z.min (Z.max (Z.of_nat max_len + 10) 50) 500))
      | None => Raised MySQLError
      end
  | DInt64 => Returned BIGINT
  | DFloat64 => Returned DOUBLE
  | DBool => Returned BOOLEAN
  | DOther | DOtherNumeric => Returned TEXT
  end.

Definition col_def (name : string) (t : mysql_type) : string :=
  "`" +++ name +++ "` " +++ render_type t.

Fixpoint col_defs (column_type : column -> outcome mysql_type) (df : frame)
  : outcome (list string) :=
  match df with
  | [] => Returned []
  | c :: df' =>
      match column_type c with
      | Raised e => Raised e
      | Returned t =>
          match col_defs column_type df' with
          | Raised e => Raised e
          | Returned defs => Returned (col_def (cname c) t :: defs)
          end
      end
  end.

Definition create_table_sql (table_name : string) (defs : list string) : string :=
  "CREATE TABLE `" +++ table_name +++ "` (" +++ String.concat ", " defs +++ ")".

(** [cursor.execute(insert_sql, values)]. *)
Definition execute_insert (values : list param) (conn : connection) : outcome connection :=
  if insert_ok values then
    Returned (mkConnection (stored conn) (pending conn ++ [values]) (sent conn ++ [Insert values]))
  else Raised MySQLError.

(** The rows of one batch, up to the first refusal. The result pairs the
    connection with the exception, if one was raised. *)
Fixpoint insert_rows (batch : list (list param)) (conn : connection)
  : connection * option exn :=
  match batch with
  | [] => (conn, None)
  | values :: batch' =>
      match execute_insert values conn with
      | Returned conn' => insert_rows batch' conn'
      | Raised e => (conn, Some e)
      end
  end.

(** The loop over the batches, with [conn.commit()] after each. *)
Fixpoint insert_batches (bs : list (list (list param))) (conn : connection)
  : connection * option exn :=
  match bs with
  | [] => (conn, None)
  | batch :: bs' =>
      match insert_rows batch conn with
      | (conn', None) => insert_batches bs' (commit conn')
      | (conn', Some e) => (conn', Some e)
      end
  end.

(** The body shared by [load_csv_to_mysql] and [migrate_to_mysql]: drop,
    create, insert in batches; [except Error] rolls back and re-raises, any
    other exception passes through. *)
Definition load_table (column_type : column -> outcome mysql_type)
                      (values_of : list cell -> list param)
                      (df : frame) (conn : connection) (table_name : string)
  : connection * outcome unit :=
  let conn := commit (execute_drop table_name conn) in
  match col_defs column_type df with
  | Raised MySQLError => (rollback conn, Raised MySQLError)
  | Raised e => (conn, Raised e)
  | Returned defs =>
      let conn := commit (execute_create (create_table_sql table_name defs) conn) in
      match insert_batches (batches batch_size (map values_of (rows df))) conn with
      | (conn, None) => (conn, Returned tt)
      | (conn, Some MySQLError) => (rollback conn, Raised MySQLError)
      | (conn, Some e) => (conn, Raised e)
      end
  end.

(** What a load without refusals sends after the table is created. *)
Definition insert_log (bs : list (list (list param))) : list statement :=
  concat (map (fun batch => map Insert batch ++ [Commit]) bs).

Definition load_csv_to_mysql : frame -> connection -> string -> connection * outcome unit :=
  load_table column_type_csv values_csv.

Definition migrate_to_mysql : frame -> connection -> string -> connection * outcome unit :=
  load_table column_type_migrate values_raw.

End Sink.

(** ** read_sqlite (migrate_sqlite_to_mysql.py) *)

(** What the function finds on disk: whether [sqlite3.connect(path)] opens
    the file or raises, and what [pd.read_csv(path)] and
    [pd.read_sql("SELECT * FROM table", conn)] give for a database file: a
    table or an exception. *)
Record disk : Type := mkDisk {
  connect : string -> outcome unit;
  read_csv : string -> outcome frame;
  read_sql : string -> string -> outcome frame
}.

Fixpoint starts_with (p s : string) : bool :=
  match p, s with
  | EmptyString, _ => true
  | String a p', String b s' => Ascii.eqb a b && starts_with p' s'
  | _, _ => false
  end.

(** [s.replace(old, new)] for a non-empty [old]: every occurrence, left to
    right; [skip] counts the characters of an occurrence still to pass. *)
Fixpoint replace_from (old new : string) (skip : nat) (s : string) : string :=
  match s with
  | EmptyString => EmptyString
  | String c s' =>
      match skip with
      | S k => replace_from old new k s'
      | 0 =>
          if starts_with old s then new +++ replace_from old new (String.length old - 1) s'
          else String c (replace_from old new 0 s')
      end
  end.

Definition str_replace (old new s : string) : string := replace_from old new 0 s.

(** The body of [read_sqlite]: the connection is opened, the CSV beside
    the database is read and its table thrown away, then the table is read;
    any exception is logged and re-raised. *)
Definition read_sqlite (fs : disk) (db_path table_name : string) : outcome frame :=
  match connect fs db_path with
  | Raised e => Raised e
  | Returned _ =>
      match read_csv fs (str_replace ".db" ".csv" db_path) with
      | Raised e => Raised e
      | Returned _ =>
          match read_sql fs db_path table_name with
          | Raised e => Raised e
          | Returned df => Returned df
          end
      end
  end.

(** A direct read of the SQLite table, in the words of the specification. *)
Definition read_sqlite_table (fs : disk) (db_path table_name : string) : outcome frame :=
  match connect fs db_path with
  | Raised e => Raised e
  | Returned _ => read_sql fs db_path table_name
  end.

(** ** The primary artist (plot_top_artists, app.py) *)

(** [s.split(sep)] for a one-character separator: at least one piece. *)
Fixpoint split_on (sep : ascii) (s : string) : list string :=
  match s with
  | EmptyString => [EmptyString]
  | String c s' =>
      if Ascii.eqb c sep then EmptyString :: split_on sep s'
      else
        match split_on sep s' with
        | piece :: pieces => String c piece :: pieces
        | [] => [String c EmptyString]
        end
  end.

(** The characters [str.strip()] removes, those for which [str.isspace]
    holds, each as its UTF-8 bytes: U+0009 to U+000D, U+001C to U+0020,
    U+0085, U+00A0, U+1680, U+2000 to U+200A, U+2028, U+2029, U+202F,
    U+205F and U+3000. *)
Definition utf8 (bytes : list nat) : string :=
  string_of_list_ascii (map ascii_of_nat bytes).

Definition white_space : list string :=
  map utf8
    [ [9]; [10]; [11]; [12]; [13]; [28]; [29]; [30]; [31]; [32];
      [194; 133]; [194; 160]; [225; 154; 128];
      [226; 128; 128]; [226; 128; 129]; [226; 128; 130]; [226; 128; 131];
      [226; 128; 132]; [226; 128; 133]; [226; 128; 134]; [226; 128; 135];
      [226; 128; 136]; [226; 128; 137]; [226; 128; 138];
      [226; 128; 168]; [226; 128; 169]; [226; 128; 175];
      [226; 129; 159]; [227; 128; 128] ].

Definition is_space (ch : string) : bool := mem_str ch white_space.

Fixpoint lstrip_chars (l : list string) : list string :=
  match l with
  | [] => []
  | ch :: l' => if is_space ch then lstrip_chars l' else l
  end.

Definition strip_chars (l : list string) : list string :=
  rev (lstrip_chars (rev (lstrip_chars l))).

(** Characters back to one text. *)
Definition join (l : list string) : string := fold_right String.append EmptyString l.

Definition strip (s : string) : string := join (strip_chars (chars s)).

Section PrimaryArtist.
Context {NT : NumericText}.

Definition text_of (c : cell) : string :=
  match astype_str_cell c with
  | Str t => t
  | _ => EmptyString
  end.

(** [.fillna('Unknown').astype(str).str.split(',').str[0].str.strip()] on
    one entry. *)
Definition primary_artist (c : cell) : string :=
  strip (hd EmptyString (split_on ","%char (text_of (fill_cell (Str "Unknown") c)))).

End PrimaryArtist.

(** ** clean_data with the DataFrames as objects in a store

    The pure [clean_data] above treats tables as values. Here each
    DataFrame is an object in a store, a variable holds a reference, and
    [df[col] = s] writes into the object the variable refers to, as in
    Python. *)

Abbreviation ref := nat (only parsing).
Abbreviation heap := (list frame) (only parsing).

Definition M (A : Type) : Type := heap -> option (A * heap).

Definition ret {A : Type} (a : A) : M A := fun h => Some (a, h).

Definition bind {A B : Type} (m : M A) (k : A -> M B) : M B :=
  fun h =>
    match m h with
    | Some (a, h') => k a h'
    | None => None
    end.

Definition raise {A : Type} : M A := fun _ => None.

Notation "'let*' x ':=' m 'in' k" := (bind m (fun x => k))
  (at level 10, x name, m at level 100, k at level 200).

Definition load (r : ref) : M frame :=
  fun h =>
    match h !! r with
    | Some t => Some (t, h)
    | None => None
    end.

Definition store (r : ref) (t : frame) : M unit :=
  fun h =>
    match h !! r with
    | Some _ => Some (tt, <[r := t]> h)
    | None => None
    end.

Definition alloc (t : frame) : M ref := fun h => Some (length h, h ++ [t]).

(** [df.copy()], [col in df.columns], [df.columns], [df[col]],
    [df[col] = s], [df.drop(columns=..)], [df.drop_duplicates(..)]. *)
Definition df_copy (df : ref) : M ref :=
  let* t := load df in alloc t.

Definition df_contains (df : ref) (col : string) : M bool :=
  let* t := load df in ret (has_col col t).

Definition df_columns (df : ref) : M (list string) :=
  let* t := load df in ret (columns t).

Definition df_getitem (df : ref) (col : string) : M column :=
  let* t := load df in
  match get_col col t with
  | Some s => ret s
  | None => raise
  end.

Definition df_setitem (df : ref) (col : string) (s : column) : M unit :=
  let* t := load df in store df (set_col col s t).

Definition df_drop (df : ref) (names : list string) : M ref :=
  let* t := load df in alloc (drop_columns names t).

Definition df_drop_duplicates_subset (df : ref) (key : string) : M ref :=
  let* t := load df in alloc (drop_duplicates_subset key t).

Definition df_drop_duplicates (df : ref) : M ref :=
  let* t := load df in alloc (drop_duplicates t).

Fixpoint for_each {A : Type} (l : list A) (body : A -> M unit) : M unit :=
  match l with
  | [] => ret tt
  | x :: l' => let* _ := body x in for_each l' body
  end.

Fixpoint fold_each {A S : Type} (l : list A) (body : S -> A -> M S) (s : S) : M S :=
  match l with
  | [] => ret s
  | x :: l' => let* s' := body s x in fold_each l' body s'
  end.

Section CleaningInStore.
Context {NT : NumericText}.

Definition fill_text_body (df : ref) (col : string) : M unit :=
  let* present := df_contains df col in
  if present then
    let* s := df_getitem df col in
    df_setitem df col (fillna_text "Unknown" s)
  else ret tt.

Definition heuristic_body (df : ref) (cands : list string) (col : string) : M (list string) :=
  if mem_str col cands then ret cands
  else
    let* s := df_getitem df col in
    if is_object_dtype (cdtype s) then
      if converts_well s then ret (cands ++ [col]) else ret cands
    else ret cands.

Definition coerce_body (df : ref) (col : string) : M unit :=
  let* present := df_contains df col in
  if present then
    let* s := df_getitem df col in
    let* _ := df_setitem df col (to_numeric s) in
    let* s := df_getitem df col in
    match median s with
    | Some q =>
        let* s := df_getitem df col in
        df_setitem df col (fillna_num (Some q) s)
    | None => ret tt
    end
  else ret tt.

Definition ensure_body (df : ref) (col : string) : M unit :=
  let* present := df_contains df col in
  if present then
    let* s := df_getitem df col in
    let* _ := df_setitem df col (to_numeric s) in
    let* s := df_getitem df col in
    if isnull_any s then
      let* s1 := df_getitem df col in
      let* s2 := df_getitem df col in
      df_setitem df col (fillna_num (median s2) s1)
    else ret tt
  else ret tt.

Definition clean_data_st (arg : ref) : M ref :=
  let* df := df_copy arg in
  let* unnamed := df_contains df "Unnamed: 0" in
  let* df := (if unnamed then df_drop df ["Unnamed: 0"] else ret df) in
  let* _ := for_each text_columns (fill_text_body df) in
  let* cols := df_columns df in
  let* cands := fold_each cols (heuristic_body df) declared_numeric in
  let cands := dedupe_keys cands in
  let* _ := for_each cands (coerce_body df) in
  let* by_id := df_contains df "track_id" in
  let* df := (if by_id then df_drop_duplicates_subset df "track_id"
              else df_drop_duplicates df) in
  let* _ := for_each audio_features (ensure_body df) in
  ret df.

End CleaningInStore.

(** ** A concrete reading of numbers, for the examples

    Plain decimal literals (an optional minus sign, digits, and an optional
    fraction) and the two infinities as 'inf' and '-inf'; pandas reads more
    than that, and the examples keep to these. Integral values print as
    Python prints floats ("5.0"); other values print as a fraction, which
    no example below relies on. A coerced column is int64 when every entry
    is a text of digits with an optional sign, and float64 otherwise. *)
Definition digits_value (s : string) : option Z :=
  match s with
  | EmptyString => None
  | _ => option_map Z.of_uint (NilEmpty.uint_of_string s)
  end.

Fixpoint split_at_dot (s : string) : string * option string :=
  match s with
  | EmptyString => (EmptyString, None)
  | String c s' =>
      if Ascii.eqb c "."%char then (EmptyString, Some s')
      else let '(a, b) := split_at_dot s' in (String c a, b)
  end.

Definition parse_unsigned (s : string) : option Q :=
  let '(int_part, frac) := split_at_dot s in
  match digits_value int_part, frac with
  | Some n, None => Some (inject_Z n)
  | Some n, Some f =>
      match digits_value f with
      | Some m =>
          Some (Qred (inject_Z n + inject_Z m / inject_Z (10 ^ Z.of_nat (String.length f))))%Q
      | None => None
      end
  | None, _ => None
  end.

Definition parse_decimal (s : string) : option number :=
  if String.eqb s "inf" then Some (Infinite true)
  else if String.eqb s "-inf" then Some (Infinite false)
  else
    match s with
    | String "-"%char s' => option_map (fun q => Finite (Qopp q)) (parse_unsigned s')
    | _ => option_map Finite (parse_unsigned s)
    end.

Definition reads_as_integer (c : cell) : bool :=
  match c with
  | Str (String "-"%char s') => match digits_value s' with Some _ => true | None => false end
  | Str s => match digits_value s with Some _ => true | None => false end
  | _ => false
  end.

Definition dtype_of_coerced (l : list cell) : dtype :=
  if forallb reads_as_integer l then DInt64 else DFloat64.

Definition string_of_Z (z : Z) : string := NilEmpty.string_of_int (Z.to_int z).

Definition repr_decimal (q : Q) : string :=
  let r := Qred q in
  if Pos.eqb (Qden r) 1 then string_of_Z (Qnum r) +++ ".0"
  else string_of_Z (Qnum r) +++ "/" +++ string_of_Z (Z.pos (Qden r)).

Definition decimal_text : NumericText :=
  {| parse_number := parse_decimal;
     repr_number := repr_decimal;
     coerced_dtype := dtype_of_coerced;
     coerced_dtype_numeric := fun l =>
       match forallb reads_as_integer l as b
             return is_numeric_dtype (if b then DInt64 else DFloat64) = true
       with
       | true => eq_refl
       | false => eq_refl
       end |}.

(** ** Example tables *)

(** One identifier three times, and a text column with one numeric-looking
    entry out of four. *)
Definition tracks_with_note : frame :=
  [ mkColumn "track_id" DObject [Str "a"; Str "a"; Str "a"; Str "b"];
    mkColumn "note" DObject [Str "x"; Str "y"; Str "z"; Str "1"] ].

(** An audio feature that is empty in the CSV: read as float64, all NaN. *)
Definition tracks_without_energy : frame :=
  [ mkColumn "track_id" DObject [Str "a"; Str "b"];
    mkColumn "energy" DFloat64 [NA; NA] ].

(** A hundred tracks: thirty 'pop' with popularity 20..49, ten 'pop' with
    popularity 0..9, sixty 'rock' with popularity 40..99. *)
Definition hundred_tracks : frame :=
  [ mkColumn "track_genre" DObject
      (map (fun i => Str (if i <? 40 then "pop" else "rock")) (seq 0 100));
    mkColumn "artists" DObject (map (fun i => Str "artist") (seq 0 100));
    mkColumn "popularity" DInt64
      (map (fun i => Num (inject_Z (Z.of_nat (if i <? 30 then 20 + i
                                              else if i <? 40 then i - 30 else i))))
           (seq 0 100)) ].

(** A table in which one genre is called 'All'. *)
Definition tracks_genre_all : frame :=
  [ mkColumn "track_genre" DObject [Str "All"; Str "pop"];
    mkColumn "artists" DObject [Str "x"; Str "y"];
    mkColumn "popularity" DInt64 [Num 50; Num 60] ].

(** A text column whose one entry is 65536 characters long. *)
Definition long_text : string := string_of_list_ascii (repeat "a"%char (Z.to_nat 65536)).

Definition lyrics_column : column := mkColumn "lyrics" DObject [Str long_text].

(** Artists, one of them with an accent ('Céline', the 'é' in two bytes)
    and one missing. *)
Definition artists_with_accent : column :=
  mkColumn "artists" DObject
    [Str "x"; NA; Str (String.append "C" (String.append (utf8 [195; 169]) "line"))].

(** A disk with the database and its 'tracks' table, and no CSV file. *)
Definition disk_without_csv : disk :=
  {| connect := fun _ => Returned tt;
     read_csv := fun _ => Raised FileNotFoundError;
     read_sql := fun db table =>
       if String.eqb db "spotify_tracks.db" && String.eqb table "tracks"
       then Returned tracks_genre_all
       else Raised DatabaseError |}.

(** A thousand and one tracks; the server refuses the last one. *)
Definition many_tracks : frame :=
  [ mkColumn "track_id" DObject
      (map (fun i => Str (if i <? 1000 then "ok" else "refused")) (seq 0 1001)) ].

Definition refuses_marked (values : list param) : bool :=
  negb (existsb (fun v => match v with
                          | Value (Str t) => String.eqb t "refused"
                          | _ => false
                          end) values).

Definition fresh_connection : connection := mkConnection [] [] [].

(** Three notes, one of which reads as a number. *)
Definition tracks_one_in_three : frame :=
  [ mkColumn "track_id" DObject [Str "a"; Str "b"; Str "c"];
    mkColumn "note" DObject [Str "7"; Str "live"; Str "remix"] ].

(** An audio feature with both infinities and a gap, and one identifier
    twice. *)
Definition tracks_with_infinities : frame :=
  [ mkColumn "track_id" DObject [Str "a"; Str "a"; Str "b"];
    mkColumn "energy" DFloat64 [Inf false; Inf true; NA] ].

(** No identifiers; the first and the last row differ only in the kind of
    their missing entry. *)
Definition tracks_without_ids : frame :=
  [ mkColumn "note" DObject [PyNone; Str "a"; NA];
    mkColumn "artists" DObject [Str "b"; Str "a"; Str "b"] ].

(** One identifier twice and one artist missing; the second table also
    keeps its index column. *)
Definition tracks_two_defects : frame :=
  [ mkColumn "track_id" DObject [Str "a"; Str "a"; Str "b"];
    mkColumn "artists" DObject [Str "x"; NA; Str "y"];
    mkColumn "energy" DFloat64 [Num (1 # 2); Num (1 # 4); Num 1] ].

Definition tracks_two_defects_indexed : frame :=
  mkColumn "Unnamed: 0" DInt64 [Num 0; Num 1; Num 2] :: tracks_two_defects.

(** A raw table: index column, a gap in the artists, text in an audio
    feature, and a repeated identifier. *)
Definition tracks_raw : frame :=
  [ mkColumn "Unnamed: 0" DInt64 [Num 0; Num 1; Num 2; Num 3];
    mkColumn "track_id" DObject [Str "a"; Str "b"; Str "b"; Str "c"];
    mkColumn "artists" DObject [NA; Str "x"; Str "x"; Str "y"];
    mkColumn "energy" DObject [Str "0.5"; Str "loud"; NA; Str "1"];
    mkColumn "year" DObject [Str "1999"; Str "2001"; Str "n/a"; NA] ].


(* ================================================================== *)
(** * Part II: properties *)
(* ================================================================== *)

(** ** Columns by name *)

Lemma get_col_name n df s : get_col n df = Some s -> cname s = n.
Proof.
  unfold get_col. intros E. apply find_some in E as [_ E].
  apply String.eqb_eq in E. congruence.
Qed.

Lemma has_col_get_col n df : has_col n df = true <-> exists s, get_col n df = Some s.
Proof.
  unfold has_col, mem_str, columns, get_col. induction df as [|c df IH]; simpl.
  - split; [discriminate | intros [s E]; discriminate].
  - destruct (String.eqb n (cname c)); simpl; [split; eauto | exact IH].
Qed.

Lemma has_col_false_get_col n df : has_col n df = false <-> get_col n df = None.
Proof.
  destruct (has_col n df) eqn:E.
  - apply has_col_get_col in E as [s E]. rewrite E. split; discriminate.
  - split; [intros _ | reflexivity].
    destruct (get_col n df) eqn:G; [|reflexivity].
    assert (has_col n df = true) by (apply has_col_get_col; eauto). congruence.
Qed.

Lemma get_col_cons n c df :
  get_col n (c :: df) = if String.eqb n (cname c) then Some c else get_col n df.
Proof. reflexivity. Qed.

Lemma get_col_set_col n m s df :
  get_col n (set_col m s df) =
  if String.eqb n m then Some (rename m s) else get_col n df.
Proof.
  induction df as [|c df IH]; cbn [set_col].
  - rewrite get_col_cons. simpl. destruct (String.eqb n m); reflexivity.
  - destruct (String.eqb_spec m (cname c)) as [Em|Em].
    + rewrite !get_col_cons. simpl. subst m.
      destruct (String.eqb n (cname c)); reflexivity.
    + rewrite !get_col_cons, IH.
      destruct (String.eqb_spec n (cname c)) as [En|En]; [|reflexivity].
      destruct (String.eqb_spec n m); [congruence | reflexivity].
Qed.

Lemma columns_set_col m s df :
  has_col m df = true -> columns (set_col m s df) = columns df.
Proof.
  unfold has_col, mem_str, columns. induction df as [|c df IH]; simpl; [discriminate|].
  destruct (String.eqb m (cname c)) eqn:E; simpl.
  - intros _. apply String.eqb_eq in E. congruence.
  - intros Hm. f_equal. apply IH, Hm.
Qed.

Lemma columns_update_col m f df : columns (update_col m f df) = columns df.
Proof.
  unfold update_col. destruct (get_col m df) eqn:E; [|reflexivity].
  apply columns_set_col. apply has_col_get_col. eauto.
Qed.

Lemma get_col_update_col n m f df :
  get_col n (update_col m f df) =
  if String.eqb n m then option_map (fun s => rename m (f s)) (get_col m df)
  else get_col n df.
Proof.
  unfold update_col. destruct (get_col m df) eqn:E.
  - rewrite get_col_set_col. reflexivity.
  - destruct (String.eqb n m) eqn:En; [|reflexivity].
    apply String.eqb_eq in En. subst. rewrite E. reflexivity.
Qed.

(** A loop of guarded column assignments leaves the other columns alone,
    and rewrites a column named once in the loop exactly once. *)
Lemma columns_update_loop f names df :
  columns (fold_left (fun d col => update_col col f d) names df) = columns df.
Proof.
  revert df. induction names as [|m names IH]; intros df; simpl; [reflexivity|].
  rewrite IH. apply columns_update_col.
Qed.

Lemma get_col_update_loop_other f names n df :
  ~ In n names ->
  get_col n (fold_left (fun d col => update_col col f d) names df) = get_col n df.
Proof.
  revert df. induction names as [|m names IH]; intros df Hn; simpl; [reflexivity|].
  rewrite IH by (intros Hin; apply Hn; right; exact Hin).
  rewrite get_col_update_col.
  destruct (String.eqb n m) eqn:E; [|reflexivity].
  apply String.eqb_eq in E. subst. exfalso. apply Hn. left. reflexivity.
Qed.

Lemma get_col_update_loop_once f names n df s :
  (forall c, cname (f c) = cname c) ->
  NoDup names -> In n names -> get_col n df = Some s ->
  get_col n (fold_left (fun d col => update_col col f d) names df) = Some (f s).
Proof.
  intros Hf. revert df. induction names as [|m names IH]; intros df Hnd Hin Hs; [destruct Hin|].
  simpl. inversion Hnd as [|? ? Hm Hnd']; subst.
  destruct (String.eqb_spec n m) as [->|Hne].
  - rewrite get_col_update_loop_other by exact Hm.
    rewrite get_col_update_col, String.eqb_refl, Hs. simpl.
    f_equal. unfold rename. rewrite <- (get_col_name _ _ _ Hs), <- (Hf s).
    destruct (f s); reflexivity.
  - destruct Hin as [->|Hin]; [congruence|].
    apply IH; [exact Hnd' | exact Hin |].
    rewrite get_col_update_col.
    destruct (String.eqb_spec n m); [congruence | exact Hs].
Qed.

(** ** Row selection and first occurrences *)

Lemma select_In {A} (mask : list bool) (l : list A) x : In x (select mask l) -> In x l.
Proof.
  revert l. induction mask as [|b mask IH]; intros [|y l]; simpl; try tauto.
  destruct b; simpl; intros Hx; [destruct Hx as [->|Hx]|]; eauto.
Qed.

Lemma select_length_le {A} (mask : list bool) (l : list A) :
  length (select mask l) <= length l.
Proof.
  revert l. induction mask as [|b mask IH]; intros [|y l]; simpl; try lia.
  destruct b; simpl; specialize (IH l); lia.
Qed.

Lemma select_all {A} (l : list A) : select (repeat true (length l)) l = l.
Proof. induction l as [|x l IH]; simpl; [reflexivity | rewrite IH; reflexivity]. Qed.

(** Entries kept by [drop_duplicates]: none equals an entry seen before it. *)
Lemma keep_first_fresh {A} (eqb : A -> A -> bool) (l seen : list A) :
  Forall (fun b => forall a, In a seen -> eqb a b = false)
         (select (map negb (duplicated_from eqb seen l)) l).
Proof.
  revert seen. induction l as [|x l IH]; intros seen; simpl; [constructor|].
  destruct (existsb (fun y => eqb y x) seen) eqn:E; simpl.
  - eapply Forall_impl; [|apply IH]. simpl. intros b Hb a Ha.
    apply Hb, in_or_app. left. exact Ha.
  - constructor.
    + intros a Ha. destruct (eqb a x) eqn:Eax; [|reflexivity].
      assert (existsb (fun y => eqb y x) seen = true)
        by (apply existsb_exists; exists a; split; assumption).
      congruence.
    + eapply Forall_impl; [|apply IH]. simpl. intros b Hb a Ha.
      apply Hb, in_or_app. left. exact Ha.
Qed.

Lemma keep_first_distinct {A} (eqb : A -> A -> bool) (l seen : list A) :
  ForallOrdPairs (fun a b => eqb a b = false)
                 (select (map negb (duplicated_from eqb seen l)) l).
Proof.
  revert seen. induction l as [|x l IH]; intros seen; simpl; [constructor|].
  destruct (existsb (fun y => eqb y x) seen); simpl; [apply IH|].
  constructor; [|apply IH].
  eapply Forall_impl; [|apply keep_first_fresh]. simpl. intros b Hb.
  apply Hb, in_or_app. right. left. reflexivity.
Qed.

(** With an equality test that decides [=], every entry survives once. *)
Lemma keep_first_In {A} (eqb : A -> A -> bool) (l seen : list A) x :
  (forall a b, eqb a b = true <-> a = b) ->
  In x l -> In x seen \/ In x (select (map negb (duplicated_from eqb seen l)) l).
Proof.
  intros Heq. revert seen. induction l as [|y l IH]; intros seen Hx; [destruct Hx|].
  simpl. destruct Hx as [->|Hx].
  - destruct (existsb (fun z => eqb z x) seen) eqn:E; simpl.
    + left. apply existsb_exists in E as [z [Hz Ez]]. apply Heq in Ez. subst. exact Hz.
    + right. left. reflexivity.
  - destruct (IH (seen ++ [y]) Hx) as [Hs|Hs].
    + apply in_app_or in Hs as [Hs|[->|[]]]; [left; exact Hs|].
      destruct (existsb (fun z => eqb z x) seen) eqn:E; simpl.
      * left. apply existsb_exists in E as [z [Hz Ez]]. apply Heq in Ez. subst. exact Hz.
      * right. left. reflexivity.
    + right. destruct (existsb (fun z => eqb z y) seen); simpl; [|right]; exact Hs.
Qed.

Lemma ForallOrdPairs_NoDup {A} (eqb : A -> A -> bool) (l : list A) :
  (forall a, eqb a a = true) ->
  ForallOrdPairs (fun a b => eqb a b = false) l -> NoDup l.
Proof.
  intros Hrefl. induction 1 as [|a l Ha _ IH]; constructor; [|exact IH].
  intros Hin. rewrite Forall_forall in Ha. specialize (Ha a Hin).
  rewrite Hrefl in Ha. discriminate.
Qed.

Lemma dedupe_keys_NoDup l : NoDup (dedupe_keys l).
Proof.
  apply (ForallOrdPairs_NoDup String.eqb); [apply String.eqb_refl|].
  apply keep_first_distinct.
Qed.

Lemma dedupe_keys_In x l : In x (dedupe_keys l) <-> In x l.
Proof.
  split; [apply select_In|]. intros Hx.
  destruct (keep_first_In String.eqb l [] x String.eqb_eq Hx) as [[]|Hk]. exact Hk.
Qed.

Lemma get_col_select_rows n mask df :
  get_col n (select_rows mask df) =
  option_map (fun c => mkColumn (cname c) (cdtype c) (select mask (cells c))) (get_col n df).
Proof.
  unfold select_rows. induction df as [|c df IH]; [reflexivity|].
  cbn [map]. rewrite !get_col_cons. cbn [cname].
  destruct (String.eqb n (cname c)); [reflexivity | exact IH].
Qed.

Lemma columns_select_rows mask df : columns (select_rows mask df) = columns df.
Proof.
  unfold columns, select_rows. rewrite map_map. reflexivity.
Qed.

Lemma get_col_drop_columns n names df :
  ~ In n names -> get_col n (drop_columns names df) = get_col n df.
Proof.
  intros Hn. unfold drop_columns. induction df as [|c df IH]; [reflexivity|].
  cbn [List.filter]. destruct (mem_str (cname c) names) eqn:E; cbn [negb].
  - rewrite get_col_cons, IH. destruct (String.eqb_spec n (cname c)) as [->|]; [|reflexivity].
    exfalso. apply Hn. unfold mem_str in E. apply existsb_exists in E as [z [Hz Ez]].
    apply String.eqb_eq in Ez. subst. exact Hz.
  - rewrite !get_col_cons, IH. reflexivity.
Qed.

Lemma get_col_drop_unnamed n df :
  n <> "Unnamed: 0" -> get_col n (drop_unnamed df) = get_col n df.
Proof.
  intros Hn. unfold drop_unnamed. destruct (has_col "Unnamed: 0" df); [|reflexivity].
  apply get_col_drop_columns. intros [E|[]]. congruence.
Qed.

Lemma mem_str_In x l : mem_str x l = true <-> In x l.
Proof.
  unfold mem_str. rewrite existsb_exists. split.
  - intros [y [Hy E]]. apply String.eqb_eq in E. subst. exact Hy.
  - intros Hx. exists x. split; [exact Hx | apply String.eqb_refl].
Qed.

Lemma get_col_drop_columns_gone n names df :
  In n names -> get_col n (drop_columns names df) = None.
Proof.
  intros Hn. unfold drop_columns. induction df as [|c df IH]; [reflexivity|].
  cbn [List.filter]. destruct (mem_str (cname c) names) eqn:E; cbn [negb]; [exact IH|].
  rewrite get_col_cons. destruct (String.eqb_spec n (cname c)) as [->|]; [|exact IH].
  apply mem_str_In in Hn. congruence.
Qed.

Lemma get_col_drop_unnamed_gone df : get_col "Unnamed: 0" (drop_unnamed df) = None.
Proof.
  unfold drop_unnamed. destruct (has_col "Unnamed: 0" df) eqn:E.
  - apply get_col_drop_columns_gone. left. reflexivity.
  - apply has_col_false_get_col, E.
Qed.

(** ** Series facts *)

Lemma isna_cell_of_number x : isna (cell_of_number x) = false.
Proof. destruct x; reflexivity. Qed.

Lemma existsb_isna_fill v l :
  isna v = false -> existsb isna (map (fill_cell v) l) = false.
Proof.
  intros Hv. induction l as [|c l IH]; [reflexivity|]. cbn [map existsb].
  unfold fill_cell at 1. destruct (isna c) eqn:E; rewrite ?Hv, ?E; exact IH.
Qed.

Lemma isnull_sum_0 s : isnull_sum s = 0 <-> isnull_any s = false.
Proof.
  unfold isnull_sum, isnull_any. induction (cells s) as [|c l IH]; simpl; [tauto|].
  destruct (isna c); simpl; [split; discriminate | exact IH].
Qed.

Lemma insert_sorted_length x l : length (insert_sorted x l) = S (length l).
Proof.
  induction l as [|y l IH]; simpl; [reflexivity|].
  destruct (number_le x y); simpl; [reflexivity | rewrite IH; reflexivity].
Qed.

Lemma sort_values_length l : length (sort_values l) = length l.
Proof.
  induction l as [|x l IH]; simpl; [reflexivity|].
  rewrite insert_sorted_length, IH. reflexivity.
Qed.

Lemma median_of_nil : median_of [] = None.
Proof. reflexivity. Qed.

(** A median of finite numbers is a number: only infinities of both signs
    in the middle give NaN. *)
Lemma insert_sorted_In x y l : In y (insert_sorted x l) <-> y = x \/ In y l.
Proof.
  induction l as [|z l IH]; cbn [insert_sorted In]; [intuition|].
  destruct (number_le x z); cbn [In]; [intuition|]. rewrite IH. intuition.
Qed.

Lemma sort_values_In y l : In y (sort_values l) <-> In y l.
Proof.
  induction l as [|x l IH]; cbn [sort_values fold_right In]; [tauto|].
  fold (sort_values l). rewrite insert_sorted_In, IH. intuition.
Qed.

Lemma median_of_finite l :
  l <> [] -> Forall is_finite l -> exists q, median_of l = Some (Finite q).
Proof.
  intros Hl Hf. unfold median_of.
  assert (Hs : Forall is_finite (sort_values l)).
  { rewrite Forall_forall in Hf. apply Forall_forall. intros y Hy.
    apply Hf. apply (proj1 (sort_values_In y l) Hy). }
  assert (Hn : length (sort_values l) <> 0).
  { rewrite sort_values_length. destruct l; [congruence | discriminate]. }
  set (sorted := sort_values l) in *. set (n := length sorted) in *.
  assert (Hnth : forall i, i < n -> exists q, nth i sorted (Finite 0) = Finite q).
  { intros i Hi. rewrite Forall_forall in Hs.
    pose proof (Hs _ (nth_In sorted (Finite 0) Hi)) as Hq.
    destruct (nth i sorted (Finite 0)) as [q|b]; [eauto | destruct Hq]. }
  destruct (n =? 0) eqn:E; [apply Nat.eqb_eq in E; contradiction|].
  assert (Hhalf : n / 2 < n) by (apply Nat.div_lt; lia).
  destruct (Nat.odd n).
  - destruct (Hnth (n / 2) Hhalf) as [q ->]. eauto.
  - destruct (Hnth (n / 2) Hhalf) as [q ->].
    destruct (Hnth (n / 2 - 1)) as [p ->]; [lia|]. cbn [mean_of_two]. eauto.
Qed.

Lemma select_no_na mask l : existsb isna l = false -> existsb isna (select mask l) = false.
Proof.
  intros Hl. destruct (existsb isna (select mask l)) eqn:E; [|reflexivity].
  apply existsb_exists in E as [c [Hc Ec]]. apply select_In in Hc.
  assert (existsb isna l = true) by (apply existsb_exists; eauto). congruence.
Qed.

Lemma numbers_of_select mask l : numbers_of l = [] -> numbers_of (select mask l) = [].
Proof.
  unfold numbers_of. revert l. induction mask as [|b mask IH]; intros [|c l] Hl; try reflexivity.
  cbn [flat_map] in Hl. apply app_eq_nil in Hl as [Hc Hl].
  cbn [select]. destruct b; [|apply IH, Hl].
  cbn [flat_map]. rewrite Hc. apply IH, Hl.
Qed.

Lemma settled_select mask s :
  settled s -> settled (mkColumn (cname s) (cdtype s) (select mask (cells s))).
Proof.
  intros [Hd [Hn|Hn]]; split; try exact Hd.
  - left. apply select_no_na, Hn.
  - right. cbn [cells]. apply numbers_of_select, Hn.
Qed.

Section CleaningFacts.
Context {NT : NumericText}.

Lemma to_numeric_name s : cname (to_numeric s) = cname s.
Proof. unfold to_numeric. destruct (is_numeric_dtype (cdtype s)); reflexivity. Qed.

Lemma to_numeric_dtype s : is_numeric_dtype (cdtype (to_numeric s)) = true.
Proof.
  unfold to_numeric. destruct (is_numeric_dtype (cdtype s)) eqn:E; [exact E|].
  apply coerced_dtype_numeric.
Qed.

Lemma to_numeric_numeric s : is_numeric_dtype (cdtype s) = true -> to_numeric s = s.
Proof. unfold to_numeric. intros ->. reflexivity. Qed.

Lemma fillna_num_name m s : cname (fillna_num m s) = cname s.
Proof. destruct m; reflexivity. Qed.

Lemma fillna_num_dtype m s : cdtype (fillna_num m s) = cdtype s.
Proof. destruct m; reflexivity. Qed.

Lemma coerce_and_impute_name s : cname (coerce_and_impute s) = cname s.
Proof.
  unfold coerce_and_impute. destruct (median (to_numeric s));
    [rewrite fillna_num_name|]; apply to_numeric_name.
Qed.

Lemma coerce_and_impute_dtype s : is_numeric_dtype (cdtype (coerce_and_impute s)) = true.
Proof.
  unfold coerce_and_impute. destruct (median (to_numeric s));
    [rewrite fillna_num_dtype|]; apply to_numeric_dtype.
Qed.

(** Imputation is total as soon as the coerced column has a median, and
    trivially so on a column without entries. *)
Lemma coerce_and_impute_complete s :
  cells s = [] \/ median (to_numeric s) <> None ->
  isnull_any (coerce_and_impute s) = false.
Proof.
  intros [Hnil|Hm]; unfold coerce_and_impute.
  - assert (E : cells (to_numeric s) = []).
    { unfold to_numeric. destruct (is_numeric_dtype (cdtype s)); simpl; rewrite Hnil; reflexivity. }
    destruct (median (to_numeric s)); unfold isnull_any; simpl; rewrite E; reflexivity.
  - destruct (median (to_numeric s)) as [m|]; [|congruence].
    unfold isnull_any. simpl. apply existsb_isna_fill, isna_cell_of_number.
Qed.

Lemma coerce_and_impute_without_median s :
  median (to_numeric s) = None -> coerce_and_impute s = to_numeric s.
Proof. unfold coerce_and_impute. intros ->. reflexivity. Qed.

Lemma ensure_numeric_name s : cname (ensure_numeric s) = cname s.
Proof.
  unfold ensure_numeric. destruct (isnull_any (to_numeric s));
    [rewrite fillna_num_name|]; apply to_numeric_name.
Qed.

Lemma ensure_numeric_dtype s : is_numeric_dtype (cdtype (ensure_numeric s)) = true.
Proof.
  unfold ensure_numeric. destruct (isnull_any (to_numeric s));
    [rewrite fillna_num_dtype|]; apply to_numeric_dtype.
Qed.

Lemma ensure_numeric_complete s :
  is_numeric_dtype (cdtype s) = true -> isnull_any s = false -> ensure_numeric s = s.
Proof.
  intros Hd Hn. unfold ensure_numeric. rewrite (to_numeric_numeric s Hd), Hn. reflexivity.
Qed.

(** A column the imputation is done with is left alone by step 5. *)
Lemma ensure_numeric_settled s : settled s -> ensure_numeric s = s.
Proof.
  intros [Hd Hn]. unfold ensure_numeric. rewrite (to_numeric_numeric s Hd).
  destruct (isnull_any s) eqn:E; [|reflexivity].
  destruct Hn as [Hn|Hn]; [discriminate|]. unfold median. rewrite Hn. reflexivity.
Qed.

Lemma fillna_text_name v s : cname (fillna_text v s) = cname s.
Proof. reflexivity. Qed.

(** Which names the heuristic loop adds. *)
Lemma heuristic_loop_In df names init x :
  In x (fold_left (heuristic_step df) names init) <->
  In x init \/
  (In x names /\ exists s, get_col x df = Some s /\
                           is_object_dtype (cdtype s) = true /\ converts_well s = true).
Proof.
  revert init. induction names as [|m names IH]; intros init; cbn [fold_left].
  - split; [auto | intros [Hx|[[] _]]; exact Hx].
  - rewrite IH. unfold heuristic_step.
    destruct (mem_str m init) eqn:Em.
    + split; [intros [Hx|[Hx Hs]]; [left; exact Hx | right; split; [right; exact Hx | exact Hs]]|].
      intros [Hx|[[->|Hx] Hs]]; [left; exact Hx | | right; split; assumption].
      left. apply mem_str_In, Em.
    + destruct (get_col m df) as [sm|] eqn:Gm.
      * destruct (is_object_dtype (cdtype sm) && converts_well sm) eqn:Et.
        -- apply andb_true_iff in Et as [Eo Ec]. rewrite in_app_iff. cbn [In]. split.
           ++ intros [[Hx|[->|[]]]|[Hx Hs]]; [left; exact Hx | | right; split; [right; exact Hx | exact Hs]].
              right. split; [left; reflexivity | eauto].
           ++ intros [Hx|[[->|Hx] Hs]]; [left; left; exact Hx | left; right; left; reflexivity |].
              right. split; assumption.
        -- split; [intros [Hx|[Hx Hs]]; [left; exact Hx | right; split; [right; exact Hx | exact Hs]]|].
           intros [Hx|[[->|Hx] Hs]]; [left; exact Hx | | right; split; assumption].
           destruct Hs as [s [Gs [Eo Ec]]]. rewrite Gm in Gs. inversion Gs; subst.
           rewrite Eo, Ec in Et. discriminate.
      * split; [intros [Hx|[Hx Hs]]; [left; exact Hx | right; split; [right; exact Hx | exact Hs]]|].
        intros [Hx|[[->|Hx] Hs]]; [left; exact Hx | | right; split; assumption].
        destruct Hs as [s [Gs _]]. congruence.
Qed.

Lemma numeric_candidates_In df x :
  In x (numeric_candidates df) <->
  In x declared_numeric \/
  (exists s, get_col x df = Some s /\
             is_object_dtype (cdtype s) = true /\ converts_well s = true).
Proof.
  unfold numeric_candidates. rewrite dedupe_keys_In, heuristic_loop_In.
  split; intros [Hx|Hx]; auto.
  - right. tauto.
  - right. split; [|exact Hx]. destruct Hx as [s [Gs _]].
    apply mem_str_In. apply has_col_get_col. eauto.
Qed.

End CleaningFacts.

(** ** clean_data: the audio features *)

Lemma audio_features_NoDup : NoDup audio_features.
Proof. unfold audio_features. repeat constructor; simpl; intuition discriminate. Qed.

Lemma audio_features_declared a : In a audio_features -> In a declared_numeric.
Proof. unfold audio_features, declared_numeric. simpl. intuition. Qed.

Lemma audio_features_not_text a : In a audio_features -> ~ In a text_columns.
Proof.
  unfold audio_features, text_columns. simpl.
  intros Ha Ht. repeat (destruct Ha as [<-|Ha]; [intuition discriminate|]). exact Ha.
Qed.

Lemma audio_features_not_unnamed a : In a audio_features -> a <> "Unnamed: 0".
Proof.
  unfold audio_features. simpl. intros Ha E. subst.
  repeat (destruct Ha as [Ha|Ha]; [discriminate|]). exact Ha.
Qed.

Section CleanData.
Context {NT : NumericText}.

Lemma get_col_remove_duplicates n df s :
  get_col n df = Some s ->
  exists mask, get_col n (remove_duplicates df)
               = Some (mkColumn (cname s) (cdtype s) (select mask (cells s))).
Proof.
  intros Hs. unfold remove_duplicates, drop_duplicates_subset, drop_duplicates.
  destruct (has_col "track_id" df); [destruct (get_col "track_id" df)|];
    try (eexists; rewrite get_col_select_rows, Hs; reflexivity).
  exists (repeat true (length (cells s))). rewrite Hs, select_all.
  destruct s; reflexivity.
Qed.

(** C1, as amended. An audio-feature column of the input is numeric in the
    cleaned table. It has no missing value there when it has no entries at
    all or its entries, read as numbers, have a median; that is so, in
    particular, when at least one entry reads as a number and none as an
    infinity. When not one of its entries reads as a number, nothing is
    filled in: the cleaned column is the coerced one on the rows that are
    kept, missing values included. *)
Theorem clean_data_audio_feature_complete (df : frame) (a : string) (s : column) :
  In a audio_features ->
  get_col a df = Some s ->
  exists s', get_col a (clean_data df) = Some s' /\
             is_numeric_dtype (cdtype s') = true /\
             (cells s = [] \/ median (to_numeric s) <> None -> isnull_sum s' = 0) /\
             (numbers_of (cells (to_numeric s)) <> [] ->
              Forall is_finite (numbers_of (cells (to_numeric s))) ->
              isnull_sum s' = 0) /\
             (numbers_of (cells (to_numeric s)) = [] ->
              exists mask, cells s' = select mask (cells (to_numeric s))).
Proof.
  intros Ha Hs. unfold clean_data.
  set (d1 := fill_text (drop_unnamed df)).
  assert (H1 : get_col a d1 = Some s).
  { unfold d1, fill_text. rewrite get_col_update_loop_other by (apply audio_features_not_text, Ha).
    rewrite get_col_drop_unnamed by (apply audio_features_not_unnamed, Ha). exact Hs. }
  assert (H2 : get_col a (coerce_candidates d1) = Some (coerce_and_impute s)).
  { unfold coerce_candidates. apply get_col_update_loop_once.
    - apply coerce_and_impute_name.
    - apply dedupe_keys_NoDup.
    - apply numeric_candidates_In. left. apply audio_features_declared, Ha.
    - exact H1. }
  destruct (get_col_remove_duplicates _ _ _ H2) as [mask H3].
  set (s3 := mkColumn _ _ _) in H3.
  assert (H4 : get_col a (ensure_audio_features (remove_duplicates (coerce_candidates d1)))
               = Some (ensure_numeric s3)).
  { unfold ensure_audio_features. apply get_col_update_loop_once.
    - apply ensure_numeric_name.
    - apply audio_features_NoDup.
    - exact Ha.
    - exact H3. }
  assert (Hfull : cells s = [] \/ median (to_numeric s) <> None ->
                  isnull_sum (ensure_numeric s3) = 0).
  { intros Hc. apply isnull_sum_0.
    assert (Hn : isnull_any s3 = false).
    { unfold isnull_any, s3. simpl. apply select_no_na.
      apply (coerce_and_impute_complete s Hc). }
    rewrite ensure_numeric_complete; [exact Hn | apply coerce_and_impute_dtype | exact Hn]. }
  exists (ensure_numeric s3). split; [exact H4|]. split; [apply ensure_numeric_dtype|].
  split; [exact Hfull|]. split.
  - intros Hne Hfin. apply Hfull. right. unfold median.
    destruct (median_of_finite _ Hne Hfin) as [q ->]. discriminate.
  - intros Hnone. exists mask.
    assert (Hm : median (to_numeric s) = None) by (unfold median; rewrite Hnone; reflexivity).
    assert (Hs3 : settled s3).
    { apply settled_select. split; [apply coerce_and_impute_dtype|]. right.
      rewrite (coerce_and_impute_without_median s Hm). exact Hnone. }
    rewrite (ensure_numeric_settled s3 Hs3). unfold s3. cbn [cells].
    rewrite (coerce_and_impute_without_median s Hm). reflexivity.
Qed.

End CleanData.

Lemma clean_data_audio_feature_complete_witness :
  exists s', get_col "energy" (clean_data (NT := decimal_text) tracks_raw) = Some s' /\
             is_numeric_dtype (cdtype s') = true /\
             isnull_sum s' = 0.
Proof.
  destruct (clean_data_audio_feature_complete (NT := decimal_text) tracks_raw "energy"
              (mkColumn "energy" DObject [Str "0.5"; Str "loud"; NA; Str "1"]))
    as [s' [H1 [H2 [_ [H3 _]]]]].
  - simpl. tauto.
  - reflexivity.
  - exists s'. split; [exact H1|]. split; [exact H2|]. apply H3.
    + vm_compute. discriminate.
    + vm_compute. repeat constructor.
Defined.

(** C1 as stated fails: an audio feature without a single number stays
    entirely missing. *)
Lemma clean_data_audio_feature_all_missing :
  ~ (forall a s', In a audio_features ->
                  get_col a (clean_data (NT := decimal_text) tracks_without_energy) = Some s' ->
                  is_numeric_dtype (cdtype s') = true /\ isnull_sum s' = 0).
Proof.
  intros Hclaim.
  destruct (Hclaim "energy" (mkColumn "energy" DFloat64 [NA; NA])) as [_ Hn].
  - simpl. tauto.
  - reflexivity.
  - discriminate Hn.
Qed.

(** ** clean_data: identifiers *)

Lemma cell_eqb_sym a b : cell_eqb a b = cell_eqb b a.
Proof.
  destruct a as [|s|p| |x], b as [|t|q| |y]; simpl; try reflexivity.
  - apply String.eqb_sym.
  - destruct (Qeq_bool p q) eqn:E, (Qeq_bool q p) eqn:E'; try reflexivity.
    + apply Qeq_bool_iff in E. symmetry in E. apply Qeq_bool_iff in E. congruence.
    + apply Qeq_bool_iff in E'. symmetry in E'. apply Qeq_bool_iff in E'. congruence.
  - destruct x, y; reflexivity.
Qed.

Lemma ForallOrdPairs_nth_error {A} (R : A -> A -> Prop) (l : list A) :
  ForallOrdPairs R l ->
  forall i j a b, i < j -> nth_error l i = Some a -> nth_error l j = Some b -> R a b.
Proof.
  induction 1 as [|x l Hx _ IH]; intros i j a b Hij Hi Hj.
  - destruct i; discriminate.
  - destruct j as [|j]; [lia|]. simpl in Hj. destruct i as [|i]; simpl in Hi.
    + inversion Hi; subst. rewrite Forall_forall in Hx.
      apply Hx. eapply nth_error_In, Hj.
    + apply (IH i j); [lia | exact Hi | exact Hj].
Qed.

Lemma keep_first_cells_distinct (l : list cell) i j a b :
  i <> j ->
  nth_error (select (map negb (duplicated cell_eqb l)) l) i = Some a ->
  nth_error (select (map negb (duplicated cell_eqb l)) l) j = Some b ->
  cell_eqb a b = false.
Proof.
  intros Hij Hi Hj.
  pose proof (keep_first_distinct cell_eqb l []) as Hd. fold (duplicated cell_eqb l) in Hd.
  destruct (Nat.lt_total i j) as [Hlt|[->|Hlt]]; [|congruence|].
  - exact (ForallOrdPairs_nth_error _ _ Hd i j a b Hlt Hi Hj).
  - rewrite cell_eqb_sym. exact (ForallOrdPairs_nth_error _ _ Hd j i b a Hlt Hj Hi).
Qed.

Section CleanDataIdentifiers.
Context {NT : NumericText}.

(** C2. When the input has a 'track_id' column, so has the cleaned table,
    and no two of its rows carry the same identifier. Identifiers are
    compared as [drop_duplicates(subset=['track_id'])] compares them: a
    missing identifier that is NaN and one that is None are two values, so
    one of each can stay. *)
Theorem clean_data_track_id_unique (df : frame) :
  has_col "track_id" df = true ->
  exists s, get_col "track_id" (clean_data df) = Some s /\
            forall i j a b, i <> j ->
                            nth_error (cells s) i = Some a ->
                            nth_error (cells s) j = Some b ->
                            cell_eqb a b = false.
Proof.
  intros Hin. unfold clean_data.
  set (d2 := coerce_candidates (fill_text (drop_unnamed df))).
  assert (H2 : has_col "track_id" d2 = true).
  { unfold d2, has_col, coerce_candidates, fill_text. rewrite !columns_update_loop.
    fold (has_col "track_id" (drop_unnamed df)). apply has_col_get_col.
    rewrite get_col_drop_unnamed by discriminate. apply has_col_get_col, Hin. }
  destruct (proj1 (has_col_get_col _ _) H2) as [s2 G2].
  set (s3 := mkColumn (cname s2) (cdtype s2)
                      (select (map negb (duplicated cell_eqb (cells s2))) (cells s2))).
  assert (H3 : get_col "track_id" (remove_duplicates d2) = Some s3).
  { unfold remove_duplicates, drop_duplicates_subset. rewrite H2, G2.
    rewrite get_col_select_rows, G2. reflexivity. }
  exists s3. split.
  - unfold ensure_audio_features. rewrite get_col_update_loop_other; [exact H3|].
    unfold audio_features. simpl. intuition discriminate.
  - intros i j a b. apply keep_first_cells_distinct.
Qed.

End CleanDataIdentifiers.

Lemma clean_data_track_id_unique_witness :
  exists s, get_col "track_id" (clean_data (NT := decimal_text) tracks_raw) = Some s /\
            forall i j a b, i <> j ->
                            nth_error (cells s) i = Some a ->
                            nth_error (cells s) j = Some b ->
                            cell_eqb a b = false.
Proof.
  apply (clean_data_track_id_unique (NT := decimal_text) tracks_raw). reflexivity.
Defined.

(** The identifiers of the example table after cleaning. *)
Example clean_data_tracks_raw_ids :
  option_map cells (get_col "track_id" (clean_data (NT := decimal_text) tracks_raw))
  = Some [Str "a"; Str "b"; Str "c"].
Proof. reflexivity. Qed.

(** Missing identifiers: of two None and two NaN, one of each is kept. *)
Example clean_data_missing_ids :
  clean_data (NT := decimal_text)
    [mkColumn "track_id" DObject [PyNone; Str "a"; NA; PyNone; Str "a"; NA]]
  = [mkColumn "track_id" DObject [PyNone; Str "a"; NA]].
Proof. reflexivity. Qed.

(** ** clean_data: the numeric-candidate heuristic *)

Section Heuristic.
Context {NT : NumericText}.

Lemma notna_to_numeric_astype c :
  notna (to_numeric_cell (astype_str_cell c)) = parses_as_number c.
Proof.
  unfold parses_as_number.
  destruct c as [|t|q| |[|]]; simpl;
    match goal with
    | |- context [parse_number ?t] => destruct (parse_number t) as [x|]
    end; try reflexivity; destruct x; reflexivity.
Qed.

Lemma firstn_In {A} (n : nat) (l : list A) x : In x (firstn n l) -> In x l.
Proof.
  revert l. induction n as [|n IH]; intros [|y l]; simpl; try tauto.
  intros [->|Hx]; [left; reflexivity | right; apply IH, Hx].
Qed.

Lemma filter_map_length {A B} (p : B -> bool) (f : A -> B) (l : list A) :
  length (List.filter p (map f l)) = length (List.filter (fun x => p (f x)) l).
Proof.
  induction l as [|x l IH]; simpl; [reflexivity|].
  destruct (p (f x)); simpl; rewrite IH; reflexivity.
Qed.

(** The test of the heuristic, on the sample it is taken from. *)
Lemma converts_well_threshold s :
  let sample := firstn 20 (List.filter notna (cells s)) in
  converts_well s =
  (Nat.max 1 (length sample / 2) <=? length (List.filter parses_as_number sample)).
Proof.
  intros sample. unfold converts_well, sample_of, len_series, notna_sum, to_numeric.
  cbn [head astype_str dropna cells cdtype is_numeric_dtype].
  rewrite !firstn_map, !length_map. fold sample.
  rewrite filter_map_length, filter_map_length.
  rewrite (List.filter_ext _ parses_as_number) by (intros c; apply notna_to_numeric_astype).
  destruct (length sample =? 0) eqn:E; [|reflexivity].
  apply Nat.eqb_eq in E. apply length_zero_iff_nil in E. rewrite E. reflexivity.
Qed.

(** C7, as amended. A column outside the declared list is promoted exactly
    when it has object dtype and, of the [n] values sampled (its first 20
    non-null ones), at least [max 1 (n / 2)] read as numbers; an empty
    sample never promotes. A promoted column is coerced, and imputed when
    the coerced values have a median: then no missing value is left, and
    otherwise the column stays as coerced. A column that is not promoted is
    left as it is. *)
Theorem heuristic_promotion_threshold (df : frame) (col : string) (s : column) :
  ~ In col declared_numeric ->
  get_col col df = Some s ->
  let sample := firstn 20 (List.filter notna (cells s)) in
  let parsed := List.filter parses_as_number sample in
  (In col (numeric_candidates df) <->
     cdtype s = DObject /\ Nat.max 1 (length sample / 2) <= length parsed) /\
  (sample = [] -> ~ In col (numeric_candidates df)) /\
  (In col (numeric_candidates df) ->
     get_col col (coerce_candidates df) = Some (coerce_and_impute s) /\
     is_numeric_dtype (cdtype (coerce_and_impute s)) = true /\
     (median (to_numeric s) <> None -> isnull_sum (coerce_and_impute s) = 0) /\
     (median (to_numeric s) = None -> coerce_and_impute s = to_numeric s)) /\
  (~ In col (numeric_candidates df) -> get_col col (coerce_candidates df) = Some s).
Proof.
  intros Hdecl Hs sample parsed.
  assert (Hiff : In col (numeric_candidates df) <->
                 cdtype s = DObject /\ Nat.max 1 (length sample / 2) <= length parsed).
  { rewrite numeric_candidates_In. split.
    - intros [Hd|[s0 [G [Ho Hc]]]]; [contradiction|].
      rewrite Hs in G. inversion G; subst s0.
      rewrite converts_well_threshold in Hc. apply Nat.leb_le in Hc.
      split; [destruct (cdtype s); try discriminate; reflexivity | exact Hc].
    - intros [Ho Hc]. right. exists s. split; [exact Hs|]. split; [rewrite Ho; reflexivity|].
      rewrite converts_well_threshold. apply Nat.leb_le. exact Hc. }
  split; [exact Hiff|]. split; [|split].
  - intros Hnil Hin. apply Hiff in Hin as [_ Hc].
    unfold parsed in Hc. rewrite Hnil in Hc. simpl in Hc. lia.
  - intros Hin. split; [|split; [|split]].
    + unfold coerce_candidates. apply get_col_update_loop_once;
        [apply coerce_and_impute_name | apply dedupe_keys_NoDup | exact Hin | exact Hs].
    + apply coerce_and_impute_dtype.
    + intros Hm. apply isnull_sum_0, coerce_and_impute_complete. right. exact Hm.
    + apply coerce_and_impute_without_median.
  - intros Hout. unfold coerce_candidates.
    rewrite get_col_update_loop_other by exact Hout. exact Hs.
Qed.

End Heuristic.

(** The 'year' column of the example: three sampled values, two of them
    numbers, promoted and imputed with the median 2000. *)
Lemma heuristic_promotion_threshold_witness :
  In "year" (numeric_candidates (NT := decimal_text) (fill_text (drop_unnamed tracks_raw))) /\
  option_map cells
    (get_col "year" (coerce_candidates (NT := decimal_text) (fill_text (drop_unnamed tracks_raw))))
  = Some [Num 1999; Num 2001; Num 2000; Num 2000].
Proof.
  destruct (heuristic_promotion_threshold (NT := decimal_text)
              (fill_text (drop_unnamed tracks_raw)) "year"
              (mkColumn "year" DObject [Str "1999"; Str "2001"; Str "n/a"; NA]))
    as [Hiff [_ [Himp _]]].
  - unfold declared_numeric. simpl. intuition discriminate.
  - reflexivity.
  - assert (Hin : In "year" (numeric_candidates (NT := decimal_text)
                               (fill_text (drop_unnamed tracks_raw)))).
    { apply Hiff. split; [reflexivity|]. simpl. lia. }
    split; [exact Hin|]. destruct (Himp Hin) as [-> _]. reflexivity.
Defined.

(** C7 as stated fails: one number among three sampled values is no
    majority, yet the column is promoted and its text overwritten. *)
Lemma heuristic_promotes_without_majority :
  let s := mkColumn "note" DObject [Str "7"; Str "live"; Str "remix"] in
  let sample := firstn 20 (List.filter notna (cells s)) in
  let parsed := List.filter (parses_as_number (NT := decimal_text)) sample in
  get_col "note" tracks_one_in_three = Some s /\
  ~ In "note" declared_numeric /\
  In "note" (numeric_candidates (NT := decimal_text) tracks_one_in_three) /\
  ~ (length sample < 2 * length parsed) /\
  option_map cells (get_col "note" (clean_data (NT := decimal_text) tracks_one_in_three))
  = Some [Num 7; Num 7; Num 7].
Proof.
  intros s sample parsed. split; [reflexivity|]. split; [|split; [|split]].
  - intros Hin. apply mem_str_In in Hin. vm_compute in Hin. discriminate Hin.
  - apply mem_str_In. vm_compute. reflexivity.
  - vm_compute. intros Hlt. repeat (apply le_S_n in Hlt). inversion Hlt.
  - vm_compute. reflexivity.
Qed.

(** ** clean_data: running it twice *)

(** C3 fails on the code. Deduplication shortens the sample of the 'note'
    column from four values (one number, below the threshold 2) to two
    (one number, at the threshold 1): the second run promotes the column
    and overwrites its text with the median. *)
Theorem clean_data_not_idempotent :
  clean_data (NT := decimal_text) tracks_with_note
  = [ mkColumn "track_id" DObject [Str "a"; Str "b"];
      mkColumn "note" DObject [Str "x"; Str "1"] ] /\
  clean_data (NT := decimal_text) (clean_data (NT := decimal_text) tracks_with_note)
  = [ mkColumn "track_id" DObject [Str "a"; Str "b"];
      mkColumn "note" DFloat64 [Num 1; Num 1] ] /\
  clean_data (NT := decimal_text) (clean_data (NT := decimal_text) tracks_with_note)
  <> clean_data (NT := decimal_text) tracks_with_note.
Proof.
  split; [reflexivity|]. split; [reflexivity|].
  intros E. vm_compute in E. discriminate E.
Qed.

(** ** clean_data in the store *)

Lemma bind_some {A B} (m : M A) (k : A -> M B) h a h1 :
  m h = Some (a, h1) -> bind m k h = k a h1.
Proof. unfold bind. intros ->. reflexivity. Qed.

Lemma load_some d (h : heap) t : h !! d = Some t -> load d h = Some (t, h).
Proof. unfold load. intros ->. reflexivity. Qed.

Lemma store_some d (h : heap) t t' :
  h !! d = Some t -> store d t' h = Some (tt, <[d := t']> h).
Proof. unfold store. intros ->. reflexivity. Qed.

Lemma lookup_insert_same d (h : heap) t t' :
  h !! d = Some t -> <[d := t']> h !! d = Some t'.
Proof. intros Hd. apply list_lookup_insert_eq. eapply lookup_lt_Some, Hd. Qed.

Lemma df_contains_some d (h : heap) t col :
  h !! d = Some t -> df_contains d col h = Some (has_col col t, h).
Proof. intros Hd. unfold df_contains. rewrite (bind_some _ _ _ _ _ (load_some _ _ _ Hd)). reflexivity. Qed.

Lemma df_columns_some d (h : heap) t :
  h !! d = Some t -> df_columns d h = Some (columns t, h).
Proof. intros Hd. unfold df_columns. rewrite (bind_some _ _ _ _ _ (load_some _ _ _ Hd)). reflexivity. Qed.

Lemma df_getitem_some d (h : heap) t col s :
  h !! d = Some t -> get_col col t = Some s -> df_getitem d col h = Some (s, h).
Proof.
  intros Hd Hs. unfold df_getitem. rewrite (bind_some _ _ _ _ _ (load_some _ _ _ Hd)).
  rewrite Hs. reflexivity.
Qed.

Lemma df_setitem_some d (h : heap) t col s :
  h !! d = Some t -> df_setitem d col s h = Some (tt, <[d := set_col col s t]> h).
Proof.
  intros Hd. unfold df_setitem. rewrite (bind_some _ _ _ _ _ (load_some _ _ _ Hd)).
  apply (store_some _ _ _ _ Hd).
Qed.

Lemma set_col_set_col n a b t : set_col n a (set_col n b t) = set_col n a t.
Proof.
  induction t as [|c t IH]; cbn [set_col].
  - rewrite String.eqb_refl. reflexivity.
  - destruct (String.eqb n (cname c)) eqn:E; cbn [set_col].
    + cbn [rename cname]. rewrite String.eqb_refl. reflexivity.
    + rewrite E, IH. reflexivity.
Qed.

Lemma set_col_ext n a b t : rename n a = rename n b -> set_col n a t = set_col n b t.
Proof.
  intros E. induction t as [|c t IH]; cbn [set_col]; [rewrite E; reflexivity|].
  destruct (String.eqb n (cname c)); [rewrite E | rewrite IH]; reflexivity.
Qed.

Lemma rename_fillna_num n m s : rename n (fillna_num m (rename n s)) = rename n (fillna_num m s).
Proof. destruct m; reflexivity. Qed.

(** A loop whose body rewrites the object at [d] rewrites it by the fold of
    the steps, and touches nothing else. *)
Lemma for_each_update {A} (d : ref) (body : A -> M unit) (step : frame -> A -> frame) :
  (forall x (h : heap) t, h !! d = Some t -> body x h = Some (tt, <[d := step t x]> h)) ->
  forall l (h : heap) t, h !! d = Some t ->
    for_each l body h = Some (tt, <[d := fold_left step l t]> h).
Proof.
  intros Hbody. induction l as [|x l IH]; intros h t Hd; cbn [for_each fold_left].
  - unfold ret. rewrite list_insert_id by exact Hd. reflexivity.
  - rewrite (bind_some _ _ _ _ _ (Hbody x h t Hd)).
    rewrite (IH _ (step t x)) by (eapply lookup_insert_same, Hd).
    rewrite list_insert_insert_eq. reflexivity.
Qed.

Section StoreRefinement.
Context {NT : NumericText}.

Lemma fill_text_body_update d col (h : heap) t :
  h !! d = Some t ->
  fill_text_body d col h = Some (tt, <[d := update_col col (fillna_text "Unknown") t]> h).
Proof.
  intros Hd. unfold fill_text_body, update_col.
  rewrite (bind_some _ _ _ _ _ (df_contains_some _ _ _ col Hd)).
  destruct (get_col col t) as [s|] eqn:G.
  - rewrite (proj2 (has_col_get_col col t)) by eauto.
    rewrite (bind_some _ _ _ _ _ (df_getitem_some _ _ _ _ _ Hd G)).
    apply df_setitem_some, Hd.
  - rewrite (proj2 (has_col_false_get_col col t) G).
    unfold ret. rewrite list_insert_id by exact Hd. reflexivity.
Qed.

Lemma median_rename n s : median (rename n s) = median s.
Proof. reflexivity. Qed.

Lemma coerce_body_update d col (h : heap) t :
  h !! d = Some t ->
  coerce_body d col h = Some (tt, <[d := update_col col coerce_and_impute t]> h).
Proof.
  intros Hd. unfold coerce_body, update_col.
  rewrite (bind_some _ _ _ _ _ (df_contains_some _ _ _ col Hd)).
  destruct (get_col col t) as [s|] eqn:G.
  - rewrite (proj2 (has_col_get_col col t)) by eauto.
    rewrite (bind_some _ _ _ _ _ (df_getitem_some _ _ _ _ _ Hd G)).
    rewrite (bind_some _ _ _ _ _ (df_setitem_some _ _ _ col (to_numeric s) Hd)).
    pose proof (lookup_insert_same d h t (set_col col (to_numeric s) t) Hd) as Hd1.
    assert (G1 : get_col col (set_col col (to_numeric s) t) = Some (rename col (to_numeric s)))
      by (rewrite get_col_set_col, String.eqb_refl; reflexivity).
    rewrite (bind_some _ _ _ _ _ (df_getitem_some _ _ _ _ _ Hd1 G1)).
    rewrite median_rename. unfold coerce_and_impute.
    destruct (median (to_numeric s)) as [q|].
    + rewrite (bind_some _ _ _ _ _ (df_getitem_some _ _ _ _ _ Hd1 G1)).
      rewrite (df_setitem_some _ _ _ col _ Hd1).
      rewrite list_insert_insert_eq, set_col_set_col.
      rewrite (set_col_ext col _ (fillna_num (Some q) (to_numeric s)))
        by apply rename_fillna_num.
      reflexivity.
    + reflexivity.
  - rewrite (proj2 (has_col_false_get_col col t) G).
    unfold ret. rewrite list_insert_id by exact Hd. reflexivity.
Qed.

Lemma ensure_body_update d col (h : heap) t :
  h !! d = Some t ->
  ensure_body d col h = Some (tt, <[d := update_col col ensure_numeric t]> h).
Proof.
  intros Hd. unfold ensure_body, update_col.
  rewrite (bind_some _ _ _ _ _ (df_contains_some _ _ _ col Hd)).
  destruct (get_col col t) as [s|] eqn:G.
  - rewrite (proj2 (has_col_get_col col t)) by eauto.
    rewrite (bind_some _ _ _ _ _ (df_getitem_some _ _ _ _ _ Hd G)).
    rewrite (bind_some _ _ _ _ _ (df_setitem_some _ _ _ col (to_numeric s) Hd)).
    pose proof (lookup_insert_same d h t (set_col col (to_numeric s) t) Hd) as Hd1.
    assert (G1 : get_col col (set_col col (to_numeric s) t) = Some (rename col (to_numeric s)))
      by (rewrite get_col_set_col, String.eqb_refl; reflexivity).
    rewrite (bind_some _ _ _ _ _ (df_getitem_some _ _ _ _ _ Hd1 G1)).
    unfold ensure_numeric.
    change (isnull_any (rename col (to_numeric s))) with (isnull_any (to_numeric s)).
    destruct (isnull_any (to_numeric s)).
    + rewrite (bind_some _ _ _ _ _ (df_getitem_some _ _ _ _ _ Hd1 G1)).
      rewrite (bind_some _ _ _ _ _ (df_getitem_some _ _ _ _ _ Hd1 G1)).
      rewrite (df_setitem_some _ _ _ col _ Hd1).
      rewrite list_insert_insert_eq, set_col_set_col, median_rename.
      rewrite (set_col_ext col _ (fillna_num (median (to_numeric s)) (to_numeric s)))
        by apply rename_fillna_num.
      reflexivity.
    + reflexivity.
  - rewrite (proj2 (has_col_false_get_col col t) G).
    unfold ret. rewrite list_insert_id by exact Hd. reflexivity.
Qed.

Lemma heuristic_fold d (h : heap) t l init :
  h !! d = Some t ->
  (forall c, In c l -> In c (columns t)) ->
  fold_each l (heuristic_body d) init h = Some (fold_left (heuristic_step t) l init, h).
Proof.
  intros Hd. revert init. induction l as [|c l IH]; intros init Hl; cbn [fold_each fold_left].
  - reflexivity.
  - assert (Hstep : heuristic_body d init c h = Some (heuristic_step t init c, h)).
    { unfold heuristic_body, heuristic_step. destruct (mem_str c init); [reflexivity|].
      assert (Hc : has_col c t = true) by (apply mem_str_In, Hl; left; reflexivity).
      apply has_col_get_col in Hc as [s G].
      rewrite (bind_some _ _ _ _ _ (df_getitem_some _ _ _ _ _ Hd G)), G.
      destruct (is_object_dtype (cdtype s)), (converts_well s); reflexivity. }
    rewrite (bind_some _ _ _ _ _ Hstep). apply IH. intros c' Hc'. apply Hl. right. exact Hc'.
Qed.

End StoreRefinement.

Lemma lookup_snoc (h : heap) t : (h ++ [t]) !! length h = Some t.
Proof. rewrite lookup_app_r by lia. rewrite Nat.sub_diag. reflexivity. Qed.

Lemma lookup_snoc_old (h : heap) t r x : h !! r = Some x -> (h ++ [t]) !! r = Some x.
Proof. intros Hr. rewrite lookup_app_l; [exact Hr | eapply lookup_lt_Some, Hr]. Qed.

Lemma lookup_insert_old (h : heap) d t r x :
  r < d -> h !! r = Some x -> <[d := t]> h !! r = Some x.
Proof. intros Hlt Hr. rewrite list_lookup_insert_ne by lia. exact Hr. Qed.

Section CleanDataInStore.
Context {NT : NumericText}.

(** C10. Run on a reference to a table [t], [clean_data] returns a
    reference to a new object that holds the cleaned table, and every object
    that was in the store before the call, the argument included, still
    holds what it held: every write goes to a copy. *)
Theorem clean_data_leaves_argument (h : heap) (arg : ref) (t : frame) :
  h !! arg = Some t ->
  exists (res : ref) (h' : heap),
    clean_data_st arg h = Some (res, h') /\
    h' !! res = Some (clean_data t) /\
    res <> arg /\
    h' !! arg = Some t /\
    (forall r x, h !! r = Some x -> h' !! r = Some x).
Proof.
  intros Harg. pose proof (lookup_lt_Some _ _ _ Harg) as Hlt.
  unfold clean_data_st.
  (* df = df.copy() *)
  assert (E0 : df_copy arg h = Some (length h, h ++ [t])).
  { unfold df_copy. rewrite (bind_some _ _ _ _ _ (load_some _ _ _ Harg)). reflexivity. }
  rewrite (bind_some _ _ _ _ _ E0).
  pose proof (lookup_snoc h t) as H0.
  rewrite (bind_some _ _ _ _ _ (df_contains_some _ _ _ "Unnamed: 0" H0)).
  (* the drop of 'Unnamed: 0' *)
  assert (E1 : exists d1 h1,
             (if has_col "Unnamed: 0" t then df_drop (length h) ["Unnamed: 0"] else ret (length h))
               (h ++ [t]) = Some (d1, h1) /\
             h1 !! d1 = Some (drop_unnamed t) /\ length h <= d1 /\
             (forall r x, h !! r = Some x -> h1 !! r = Some x)).
  { unfold drop_unnamed. destruct (has_col "Unnamed: 0" t).
    - exists (length (h ++ [t])), ((h ++ [t]) ++ [drop_columns ["Unnamed: 0"] t]).
      split; [|split; [apply lookup_snoc | split]].
      + unfold df_drop. rewrite (bind_some _ _ _ _ _ (load_some _ _ _ H0)). reflexivity.
      + rewrite length_app. lia.
      + intros r x Hr. apply lookup_snoc_old, lookup_snoc_old, Hr.
    - exists (length h), (h ++ [t]). split; [reflexivity|]. split; [exact H0|].
      split; [lia|]. intros r x Hr. apply lookup_snoc_old, Hr. }
  destruct E1 as [d1 [h1 [E1 [H1 [Hd1 Hold1]]]]].
  rewrite (bind_some _ _ _ _ _ E1).
  (* text columns *)
  rewrite (bind_some _ _ _ _ _
             (for_each_update d1 _ _ (fun x h t => fill_text_body_update d1 x h t)
                              text_columns h1 _ H1)).
  fold (fill_text (drop_unnamed t)). set (t1 := fill_text (drop_unnamed t)).
  pose proof (lookup_insert_same d1 h1 _ t1 H1) as H2.
  (* numeric candidates *)
  rewrite (bind_some _ _ _ _ _ (df_columns_some _ _ _ H2)).
  rewrite (bind_some _ _ _ _ _
             (heuristic_fold d1 _ t1 (columns t1) declared_numeric H2 (fun c Hc => Hc))).
  fold (numeric_candidates t1).
  rewrite (bind_some _ _ _ _ _
             (for_each_update d1 _ _ (fun x h t => coerce_body_update d1 x h t)
                              (numeric_candidates t1) _ _ H2)).
  fold (coerce_candidates t1). rewrite list_insert_insert_eq.
  set (t2 := coerce_candidates t1).
  pose proof (lookup_insert_same d1 h1 _ t2 H1) as H3.
  (* duplicates *)
  rewrite (bind_some _ _ _ _ _ (df_contains_some _ _ _ "track_id" H3)).
  set (h3 := <[d1 := t2]> h1) in *.
  assert (E4 : (if has_col "track_id" t2 then df_drop_duplicates_subset d1 "track_id"
                else df_drop_duplicates d1) h3
               = Some (length h3, h3 ++ [remove_duplicates t2])).
  { unfold remove_duplicates, df_drop_duplicates_subset, df_drop_duplicates.
    destruct (has_col "track_id" t2);
      rewrite (bind_some _ _ _ _ _ (load_some _ _ _ H3)); reflexivity. }
  rewrite (bind_some _ _ _ _ _ E4).
  (* audio features *)
  rewrite (bind_some _ _ _ _ _
             (for_each_update (length h3) _ _ (fun x h t => ensure_body_update (length h3) x h t)
                              audio_features _ _ (lookup_snoc h3 _))).
  set (t4 := fold_left _ audio_features (remove_duplicates t2)).
  assert (Ht4 : t4 = clean_data t)
    by (unfold clean_data, ensure_audio_features; reflexivity).
  clearbody t4. subst t4.
  assert (Hlen3 : length h3 = length h1) by (unfold h3; apply length_insert).
  pose proof (lookup_lt_Some _ _ _ H1) as Hd1'.
  assert (Hold3 : forall r x, h !! r = Some x -> h3 !! r = Some x).
  { intros r x Hr. unfold h3. apply lookup_insert_old; [|apply Hold1, Hr].
    pose proof (lookup_lt_Some _ _ _ Hr). lia. }
  assert (Hold : forall r x, h !! r = Some x ->
             <[length h3 := clean_data t]> (h3 ++ [remove_duplicates t2]) !! r = Some x).
  { intros r x Hr. pose proof (lookup_lt_Some _ _ _ Hr).
    apply lookup_insert_old; [lia|]. apply lookup_snoc_old, Hold3, Hr. }
  eexists _, _. split; [reflexivity|]. split; [|split; [|split]].
  - apply (lookup_insert_same _ _ (remove_duplicates t2)), lookup_snoc.
  - lia.
  - apply Hold, Harg.
  - exact Hold.
Qed.

End CleanDataInStore.

Lemma clean_data_leaves_argument_witness :
  exists (res : ref) (h' : heap),
    clean_data_st (NT := decimal_text) 0 [tracks_raw] = Some (res, h') /\
    h' !! res = Some (clean_data (NT := decimal_text) tracks_raw) /\
    res <> 0 /\
    h' !! 0 = Some tracks_raw /\
    (forall r x, [tracks_raw] !! r = Some x -> h' !! r = Some x).
Proof.
  apply (clean_data_leaves_argument (NT := decimal_text) [tracks_raw] 0 tracks_raw).
  reflexivity.
Defined.

(** The same run, computed: the copy, the table without its index column,
    and the deduplicated table are three new objects. *)
Example clean_data_st_tracks_raw :
  option_map (fun p => (fst p, length (snd p), snd p !! 0))
             (clean_data_st (NT := decimal_text) 0 [tracks_raw])
  = Some (3, 4, Some tracks_raw).
Proof. reflexivity. Qed.

(** ** validate_cleaned_data *)

Lemma count_true_cons b l : count_true (b :: l) = (if b then 1 else 0) + count_true l.
Proof. unfold count_true. simpl. destruct b; reflexivity. Qed.

Lemma existsb_filter_length {A} (p : A -> bool) (l : list A) :
  (if existsb p l then 1 else 0) <= length (List.filter p l) /\
  (1 <= length (List.filter p l) -> existsb p l = true).
Proof.
  induction l as [|x l [IH1 IH2]]; simpl; [split; lia|].
  destruct (p x); simpl; split; try lia; auto.
Qed.

(** Rows flagged by [duplicated] against pairs of equal entries. *)
Lemma duplicated_le_pairs (l seen : list cell) :
  count_true (duplicated_from cell_eqb seen l) <= equal_pairs_from seen l /\
  (1 <= equal_pairs_from seen l -> 1 <= count_true (duplicated_from cell_eqb seen l)).
Proof.
  revert seen. induction l as [|x l IH]; intros seen; cbn [duplicated_from equal_pairs_from].
  - split; [reflexivity | intros Hp; exact Hp].
  - rewrite count_true_cons. destruct (IH (seen ++ [x])) as [IH1 IH2].
    destruct (existsb_filter_length (fun y => cell_eqb y x) seen) as [E1 E2].
    split; [lia|]. intros Hp.
    destruct (existsb (fun y => cell_eqb y x) seen); [lia|].
    destruct (length (List.filter (fun y => cell_eqb y x) seen)) as [|k]; [lia|].
    discriminate E2. lia.
Qed.

Lemma one_pair_one_duplicate (l : list cell) :
  equal_pairs l = 1 -> count_true (duplicated cell_eqb l) = 1.
Proof.
  unfold equal_pairs, duplicated. intros Hp.
  destruct (duplicated_le_pairs l []) as [H1 H2]. lia.
Qed.

Lemma check_critical_absent df found col :
  get_col col df = None -> check_critical df found col = found.
Proof. unfold check_critical. intros ->. reflexivity. Qed.

Lemma check_critical_complete df found col s :
  get_col col df = Some s -> isnull_sum s = 0 -> check_critical df found col = found.
Proof. unfold check_critical. intros -> ->. reflexivity. Qed.

Lemma check_critical_missing df found col s n :
  get_col col df = Some s -> isnull_sum s = S n ->
  check_critical df found col = found ++ [missing_issue col (S n)].
Proof. unfold check_critical. intros -> ->. reflexivity. Qed.

Lemma check_critical_other df found c :
  (forall s', get_col c df = Some s' -> isnull_sum s' = 0) ->
  check_critical df found c = found.
Proof.
  intros Hc. destruct (get_col c df) as [s'|] eqn:G.
  - apply (check_critical_complete _ _ _ s' G). apply Hc. reflexivity.
  - apply check_critical_absent, G.
Qed.

(** C4, as amended. When exactly one pair of rows shares a 'track_id',
    exactly one value is missing over the critical columns, every audio
    feature present is numeric and no 'Unnamed: 0' column is left, the
    report counts one duplicate identifier and lists exactly the two
    warnings, the duplicate first. *)
Theorem validate_reports_two_defects (df : frame) (ids s : column) (col : string) :
  get_col "track_id" df = Some ids ->
  equal_pairs (cells ids) = 1 ->
  In col critical_cols ->
  get_col col df = Some s ->
  isnull_sum s = 1 ->
  (forall c s', In c critical_cols -> c <> col ->
                get_col c df = Some s' -> isnull_sum s' = 0) ->
  non_numeric_audio df = [] ->
  has_col "Unnamed: 0" df = false ->
  duplicate_tracks (validate_cleaned_data df) = 1 /\
  issues (validate_cleaned_data df) = [duplicate_ids_issue 1; missing_issue col 1].
Proof.
  intros Hids Hpair Hcol Hs Hmiss Hothers Hnum Hunnamed.
  unfold validate_cleaned_data. cbn [duplicate_tracks issues].
  rewrite Hids, (one_pair_one_duplicate _ Hpair), Hnum, Hunnamed.
  split; [reflexivity|]. cbn [Nat.ltb Nat.leb].
  assert (Hother : forall c found, In c critical_cols -> c <> col ->
                                   check_critical df found c = found).
  { intros c found Hc Hne. apply check_critical_other.
    intros s' G. exact (Hothers c s' Hc Hne G). }
  assert (Hthis : forall found, check_critical df found col = found ++ [missing_issue col 1])
    by (intros found; apply (check_critical_missing _ _ _ s 0 Hs Hmiss)).
  unfold critical_cols in *. cbn [fold_left].
  destruct Hcol as [<-|[<-|[<-|[<-|[]]]]].
  - rewrite Hthis. rewrite !Hother; simpl; intuition discriminate.
  - rewrite (Hother "track_id") by (simpl; intuition discriminate).
    rewrite Hthis. rewrite !Hother; simpl; intuition discriminate.
  - rewrite (Hother "track_id"), (Hother "artists") by (simpl; intuition discriminate).
    rewrite Hthis. rewrite !Hother; simpl; intuition discriminate.
  - rewrite (Hother "track_id"), (Hother "artists"), (Hother "track_name")
      by (simpl; intuition discriminate).
    rewrite Hthis. reflexivity.
Qed.

Lemma validate_reports_two_defects_witness :
  duplicate_tracks (validate_cleaned_data tracks_two_defects) = 1 /\
  issues (validate_cleaned_data tracks_two_defects)
  = [duplicate_ids_issue 1; missing_issue "artists" 1].
Proof.
  apply (validate_reports_two_defects tracks_two_defects
           (mkColumn "track_id" DObject [Str "a"; Str "a"; Str "b"])
           (mkColumn "artists" DObject [Str "x"; NA; Str "y"]) "artists").
  - reflexivity.
  - reflexivity.
  - simpl. tauto.
  - reflexivity.
  - reflexivity.
  - intros c s' Hc Hne G. simpl in Hc.
    destruct Hc as [<-|[<-|[<-|[<-|[]]]]]; try congruence;
      vm_compute in G; inversion G; reflexivity.
  - reflexivity.
  - reflexivity.
Defined.

(** C4 as stated fails: one duplicated identifier and one missing artist,
    and a third warning because the index column is still there. *)
Lemma validate_reports_third_issue :
  ~ (forall (df : frame) (ids s : column) (col : string),
        get_col "track_id" df = Some ids ->
        equal_pairs (cells ids) = 1 ->
        In col critical_cols ->
        get_col col df = Some s ->
        isnull_sum s = 1 ->
        (forall c s', In c critical_cols -> c <> col ->
                      get_col c df = Some s' -> isnull_sum s' = 0) ->
        duplicate_tracks (validate_cleaned_data df) = 1 /\
        issues (validate_cleaned_data df) = [duplicate_ids_issue 1; missing_issue col 1]).
Proof.
  intros Hclaim.
  destruct (Hclaim tracks_two_defects_indexed
              (mkColumn "track_id" DObject [Str "a"; Str "a"; Str "b"])
              (mkColumn "artists" DObject [Str "x"; NA; Str "y"]) "artists") as [_ Hissues].
  - reflexivity.
  - reflexivity.
  - simpl. tauto.
  - reflexivity.
  - reflexivity.
  - intros c s' Hc Hne G. simpl in Hc.
    destruct Hc as [<-|[<-|[<-|[<-|[]]]]]; try congruence;
      vm_compute in G; inversion G; reflexivity.
  - vm_compute in Hissues. discriminate Hissues.
Qed.

Example validate_indexed_issues :
  issues (validate_cleaned_data tracks_two_defects_indexed)
  = [duplicate_ids_issue 1; missing_issue "artists" 1; unnamed_issue].
Proof. reflexivity. Qed.

(** ** The sidebar filter *)

Lemma select_nil_r {A} (mask : list bool) : select mask (@nil A) = [].
Proof. destruct mask; reflexivity. Qed.

Lemma select_length {A} (mask : list bool) (l : list A) :
  length l = length mask -> length (select mask l) = count_true mask.
Proof.
  revert l. induction mask as [|b mask IH]; intros [|x l] Hl; try discriminate; [reflexivity|].
  rewrite count_true_cons. simpl in *. destruct b; simpl; rewrite IH by lia; reflexivity.
Qed.

Lemma records_nil : records [] = [].
Proof. reflexivity. Qed.

Lemma record_at_tail df i : record_at df (S i) = record_at (iloc_tail df) i.
Proof.
  unfold record_at, iloc_tail. rewrite map_map. apply map_ext. intros c. cbn [cname cells].
  destruct (cells c); [destruct i|]; reflexivity.
Qed.

Lemma len_tail df n : len df = S n -> len (iloc_tail df) = n.
Proof.
  destruct df as [|c df]; [discriminate|]. simpl. destruct (cells c); simpl; congruence.
Qed.

(** The rows of a table with at least one row: the first, then the rest. *)
Lemma records_uncons df n :
  len df = S n -> records df = record_at df 0 :: records (iloc_tail df).
Proof.
  intros Hn. unfold records. rewrite Hn, (len_tail df n Hn). cbn [seq map]. f_equal.
  rewrite <- seq_shift, map_map. apply map_ext. intros i. apply record_at_tail.
Qed.

Lemma select_rows_skip mask df :
  select_rows (false :: mask) df = select_rows mask (iloc_tail df).
Proof.
  unfold select_rows, iloc_tail. rewrite map_map. apply map_ext. intros c. cbn [cname cdtype cells].
  destruct (cells c); cbn [tl select]; rewrite ?select_nil_r; reflexivity.
Qed.

Lemma select_rows_keep_tail mask df :
  Forall (fun c => cells c <> []) df ->
  iloc_tail (select_rows (true :: mask) df) = select_rows mask (iloc_tail df).
Proof.
  intros Hne. unfold select_rows, iloc_tail. rewrite !map_map. apply map_ext_in.
  rewrite Forall_forall in Hne. intros c Hin. specialize (Hne c Hin). cbn [cname cdtype cells].
  destruct (cells c); [congruence | reflexivity].
Qed.

Lemma select_rows_keep_head mask df :
  Forall (fun c => cells c <> []) df ->
  record_at (select_rows (true :: mask) df) 0 = record_at df 0.
Proof.
  intros Hne. unfold select_rows, record_at. rewrite map_map. apply map_ext_in.
  rewrite Forall_forall in Hne. intros c Hin. specialize (Hne c Hin). cbn [cname cdtype cells].
  destruct (cells c); [congruence | reflexivity].
Qed.

(** Selecting rows of the table is selecting among its rows. *)
Lemma records_select_rows mask df :
  Forall (fun c => length (cells c) = length mask) df ->
  records (select_rows mask df) = select mask (records df).
Proof.
  revert df. induction mask as [|b mask IH]; intros df Hlen.
  - destruct df as [|c df]; [reflexivity|]. unfold records at 1. simpl. reflexivity.
  - destruct df as [|c df]; [reflexivity|].
    assert (Hne : Forall (fun c => cells c <> []) (c :: df)).
    { eapply Forall_impl; [|exact Hlen]. simpl. intros c' Hc' E. rewrite E in Hc'. discriminate. }
    assert (Htl : Forall (fun c => length (cells c) = length mask) (iloc_tail (c :: df))).
    { unfold iloc_tail. apply Forall_map. eapply Forall_impl; [|exact Hlen]. simpl.
      intros c' Hc'. destruct (cells c'); simpl in *; [discriminate | lia]. }
    assert (Hc : len (c :: df) = S (length mask)) by (inversion Hlen; subst; assumption).
    rewrite (records_uncons _ _ Hc). destruct b.
    + cbn [select].
      assert (Hx : exists k, len (select_rows (true :: mask) (c :: df)) = S k).
      { simpl in Hc |- *. destruct (cells c); [discriminate Hc|]. simpl. eauto. }
      destruct Hx as [k Hk]. rewrite (records_uncons _ _ Hk).
      rewrite select_rows_keep_head, select_rows_keep_tail by exact Hne.
      rewrite (IH _ Htl). reflexivity.
    + cbn [select]. rewrite select_rows_skip. apply IH, Htl.
Qed.

Lemma field_record_at name df s i :
  get_col name df = Some s -> field name (record_at df i) = nth i (cells s) NA.
Proof.
  unfold field, record_at. induction df as [|c df IH]; [discriminate|].
  rewrite get_col_cons. cbn [map find fst].
  destruct (String.eqb name (cname c)); [intros E; inversion E; reflexivity | exact IH].
Qed.

Lemma select_map_map {A B} (p : A -> bool) (g : A -> B) (l : list A) :
  select (map p l) (map g l) = map g (List.filter p l).
Proof.
  induction l as [|x l IH]; simpl; [reflexivity|]. destruct (p x); simpl; rewrite IH; reflexivity.
Qed.

Lemma filter_map_swap {A B} (p : B -> bool) (g : A -> B) (l : list A) :
  List.filter p (map g l) = map g (List.filter (fun x => p (g x)) l).
Proof.
  induction l as [|x l IH]; simpl; [reflexivity|]. destruct (p (g x)); simpl; rewrite IH; reflexivity.
Qed.

Lemma cells_as_nth (l : list cell) : l = map (fun i => nth i l NA) (seq 0 (length l)).
Proof.
  induction l as [|x l IH]; [reflexivity|]. cbn [length seq map nth]. f_equal.
  rewrite <- seq_shift, map_map. exact IH.
Qed.

(** A mask computed from one column selects the rows by that field. *)
Lemma select_by_column (p : cell -> bool) name df s :
  get_col name df = Some s -> length (cells s) = len df ->
  select (map p (cells s)) (records df)
  = List.filter (fun r => p (field name r)) (records df).
Proof.
  intros Hs Hlen. unfold records. rewrite filter_map_swap.
  rewrite (cells_as_nth (cells s)) at 1. rewrite Hlen, map_map, select_map_map.
  f_equal. apply List.filter_ext. intros i. rewrite (field_record_at _ _ _ _ Hs). reflexivity.
Qed.

Lemma rectangular_get_col name df s :
  rectangular df -> get_col name df = Some s -> length (cells s) = len df.
Proof.
  unfold rectangular, get_col. intros Hr Hs. apply find_some in Hs as [Hs _].
  rewrite Forall_forall in Hr. apply Hr, Hs.
Qed.

Lemma len_select_rows mask df :
  rectangular df -> length mask = len df -> df <> [] ->
  len (select_rows mask df) = count_true mask.
Proof.
  intros Hr Hm Hne. destruct df as [|c df]; [congruence|]. simpl.
  apply select_length. simpl in Hm. congruence.
Qed.

Lemma rectangular_select_rows mask df :
  rectangular df -> length mask = len df -> rectangular (select_rows mask df).
Proof.
  intros Hr Hm. destruct df as [|c0 df0] eqn:Edf; [constructor|]. rewrite <- Edf in *.
  assert (Hne : df <> []) by (rewrite Edf; discriminate).
  unfold rectangular. rewrite (len_select_rows _ _ Hr Hm Hne).
  unfold select_rows. apply Forall_map. eapply Forall_impl; [|exact Hr]. simpl.
  intros c Hc. apply select_length. congruence.
Qed.

Lemma filter_filter {A} (p q : A -> bool) (l : list A) :
  List.filter q (List.filter p l) = List.filter (fun x => p x && q x) l.
Proof.
  induction l as [|x l IH]; simpl; [reflexivity|].
  destruct (p x); simpl; [destruct (q x)|]; rewrite IH; reflexivity.
Qed.

Section DashboardFilter.
Variable str_contains : string -> string -> bool.

(** C5, as amended. With a genre other than the selector's "All" and no
    artist search, the filter keeps the columns and returns exactly the
    rows whose 'track_genre' is that genre and whose 'popularity' lies in
    the range, both ends included, in their order. *)
Theorem df_filtered_exact (df : frame) (g : string) (a b : Z) (sg sp : column) :
  rectangular df ->
  get_col "track_genre" df = Some sg ->
  get_col "popularity" df = Some sp ->
  g <> "All" ->
  exists out,
    df_filtered str_contains df g "" (a, b) = Some out /\
    columns out = columns df /\
    records out = List.filter (genre_and_popularity g a b) (records df).
Proof.
  intros Hrect Hg Hp Hne. unfold df_filtered.
  destruct (String.eqb_spec g "All") as [E|_]; [contradiction|]. cbn [negb].
  rewrite Hg. cbn [String.eqb negb fst snd].
  set (m1 := map (fun c => cell_eqb c (Str g)) (cells sg)).
  assert (Hm1 : length m1 = len df).
  { unfold m1. rewrite length_map. apply (rectangular_get_col _ _ _ Hrect Hg). }
  rewrite get_col_select_rows, Hp. cbn [option_map cells].
  set (df1 := select_rows m1 df).
  set (m2 := map (fun c => cell_ge c a && cell_le c b) (select m1 (cells sp))).
  assert (Hrect1 : rectangular df1) by (apply rectangular_select_rows; assumption).
  assert (Hp1 : get_col "popularity" df1
                = Some (mkColumn (cname sp) (cdtype sp) (select m1 (cells sp))))
    by (unfold df1; rewrite get_col_select_rows, Hp; reflexivity).
  pose proof (rectangular_get_col _ _ _ Hrect1 Hp1) as Hlen1. cbn [cells] in Hlen1.
  exists (select_rows m2 df1). split; [reflexivity|]. split.
  - unfold df1. rewrite !columns_select_rows. reflexivity.
  - rewrite records_select_rows.
    + unfold m2.
      pose proof (select_by_column (fun c => cell_ge c a && cell_le c b)
                                   "popularity" df1 _ Hp1 Hlen1) as Hsel.
      cbn [cells] in Hsel. rewrite Hsel. clear Hsel.
      unfold df1. rewrite records_select_rows.
      * unfold m1. rewrite (select_by_column (fun c => cell_eqb c (Str g)) "track_genre" df sg Hg)
          by (apply (rectangular_get_col _ _ _ Hrect Hg)).
        rewrite filter_filter. reflexivity.
      * unfold rectangular in Hrect. rewrite Hm1. exact Hrect.
    + unfold rectangular in Hrect1. unfold m2. rewrite length_map, Hlen1. exact Hrect1.
Qed.

End DashboardFilter.

(** The example of the specification: of a hundred tracks, the thirty 'pop'
    tracks with popularity at least 20, and only those. *)
Lemma df_filtered_exact_witness :
  exists out,
    df_filtered (fun _ _ => true) hundred_tracks "pop" "" (20, 100)%Z = Some out /\
    columns out = columns hundred_tracks /\
    records out = List.filter (genre_and_popularity "pop" 20 100) (records hundred_tracks) /\
    records out = firstn 30 (records hundred_tracks) /\
    len out = 30.
Proof.
  destruct (df_filtered_exact (fun _ _ => true) hundred_tracks "pop" 20 100
              (mkColumn "track_genre" DObject
                 (map (fun i => Str (if i <? 40 then "pop" else "rock")) (seq 0 100)))
              (mkColumn "popularity" DInt64
                 (map (fun i => Num (inject_Z (Z.of_nat (if i <? 30 then 20 + i
                                                         else if i <? 40 then i - 30 else i))))
                      (seq 0 100))))
    as [out [Hout [Hcols Hrecs]]].
  - unfold rectangular, hundred_tracks. repeat constructor.
  - reflexivity.
  - reflexivity.
  - discriminate.
  - exists out. split; [exact Hout|]. split; [exact Hcols|]. split; [exact Hrecs|].
    vm_compute in Hout. inversion Hout; subst out. split; vm_compute; reflexivity.
Defined.

(** C5 as stated fails for the genre called "All": the selector reads it
    as "no genre filter", and tracks of every genre come back. *)
Lemma df_filtered_all_is_no_filter :
  ~ (forall (df : frame) (g : string) (a b : Z) (sg sp : column),
        rectangular df ->
        get_col "track_genre" df = Some sg ->
        get_col "popularity" df = Some sp ->
        exists out,
          df_filtered (fun _ _ => true) df g "" (a, b) = Some out /\
          records out = List.filter (genre_and_popularity g a b) (records df)).
Proof.
  intros Hclaim.
  destruct (Hclaim tracks_genre_all "All" 0%Z 100%Z
              (mkColumn "track_genre" DObject [Str "All"; Str "pop"])
              (mkColumn "popularity" DInt64 [Num 50; Num 60]))
    as [out [Hout Hrecs]].
  - unfold rectangular, tracks_genre_all. repeat constructor.
  - reflexivity.
  - reflexivity.
  - vm_compute in Hout. inversion Hout; subst out. vm_compute in Hrecs. discriminate Hrecs.
Qed.

(** ** Column types of the MySQL sink *)

Lemma list_max_In n l : In n l -> n <= list_max l.
Proof.
  intros Hn. assert (H : Forall (fun k => k <= list_max l) l) by (apply list_max_le; lia).
  rewrite Forall_forall in H. apply H, Hn.
Qed.

Section ColumnTypes.
Context {NT : NumericText}.

Lemma max_str_len_bound s L x :
  max_str_len s = Some L -> In (Str x) (cells s) -> char_length x <= L.
Proof.
  unfold max_str_len. intros HL Hx.
  destruct (cells s) as [|c l] eqn:E; [discriminate|]. inversion HL; subst L. clear HL.
  apply list_max_In. unfold astype_str. cbn [cells]. rewrite E, map_map.
  apply in_map_iff. exists (Str x). split; [reflexivity | exact Hx].
Qed.

Lemma max_str_len_defined s : cells s <> [] -> exists L, max_str_len s = Some L.
Proof. unfold max_str_len. destruct (cells s); [congruence | eauto]. Qed.

(** C8, as amended. On a column with at least one row the type written by
    [load_csv_to_mysql] follows the dtype: object gives VARCHAR of length
    min (max (L + 100) 255) 65535, where L is the number of characters of
    the longest value as text; that covers every value when L is at most
    65535. int64, float64 and bool give BIGINT, DOUBLE and BOOLEAN, every
    other dtype gives TEXT. [migrate_to_mysql] does the same with
    min (max (L + 10) 50) 500, and so does [infer_mysql_type], which has
    255 when the length is 0 or not given. *)
Theorem column_type_follows_dtype (s : column) :
  cells s <> [] ->
  exists L,
    max_str_len s = Some L /\
    (forall x, In (Str x) (cells s) -> char_length x <= L) /\
    column_type_csv s =
      match cdtype s with
      | DObject => Returned (VARCHAR (Z.min (Z.max (Z.of_nat L + 100) 255) 65535))
      | DInt64 => Returned BIGINT
      | DFloat64 => Returned DOUBLE
      | DBool => Returned BOOLEAN
      | DOther | DOtherNumeric => Returned TEXT
      end /\
    ((Z.of_nat L <= 65535)%Z ->
     (Z.of_nat L <= Z.min (Z.max (Z.of_nat L + 100) 255) 65535)%Z) /\
    column_type_migrate s =
      match cdtype s with
      | DObject => Returned (VARCHAR (Z.min (Z.max (Z.of_nat L + 10) 50) 500))
      | DInt64 => Returned BIGINT
      | DFloat64 => Returned DOUBLE
      | DBool => Returned BOOLEAN
      | DOther | DOtherNumeric => Returned TEXT
      end /\
    infer_mysql_type (cdtype s) (Some (Z.of_nat L)) =
      match cdtype s with
      | DObject => VARCHAR (if L =? 0 then 255 else Z.min (Z.max (Z.of_nat L + 10) 50) 500)
      | DInt64 => BIGINT
      | DFloat64 => DOUBLE
      | DBool => BOOLEAN
      | DOther | DOtherNumeric => TEXT
      end /\
    infer_mysql_type (cdtype s) None =
      match cdtype s with
      | DObject => VARCHAR 255
      | DInt64 => BIGINT
      | DFloat64 => DOUBLE
      | DBool => BOOLEAN
      | DOther | DOtherNumeric => TEXT
      end.
Proof.
  intros Hne. destruct (max_str_len_defined s Hne) as [L HL]. exists L.
  split; [exact HL|]. split; [intros x; apply (max_str_len_bound s L x HL)|].
  split; [|split; [|split; [|split]]].
  - unfold column_type_csv. rewrite HL. destruct (cdtype s); reflexivity.
  - lia.
  - unfold column_type_migrate. rewrite HL. destruct (cdtype s); reflexivity.
  - unfold infer_mysql_type. destruct (cdtype s); try reflexivity.
    destruct L; [reflexivity|]. cbn [Nat.eqb].
    destruct (Z.eqb_spec (Z.of_nat (S L)) 0); [lia | reflexivity].
  - destruct (cdtype s); reflexivity.
Qed.

End ColumnTypes.

(** 'Céline' has six characters in seven bytes; the longest entry as text
    is that name, the missing one printing as 'nan'. *)
Lemma column_type_follows_dtype_witness :
  exists L,
    max_str_len (NT := decimal_text) artists_with_accent = Some L /\
    L = 6 /\
    column_type_csv (NT := decimal_text) artists_with_accent = Returned (VARCHAR 255).
Proof.
  destruct (column_type_follows_dtype (NT := decimal_text) artists_with_accent)
    as [L [HL [_ [Ht _]]]].
  - discriminate.
  - exists L. split; [exact HL|]. vm_compute in HL. inversion HL; subst L.
    split; [reflexivity | exact Ht].
Defined.

(** C8 as stated fails: the declared length stops at 65535, one short of
    the 65536 characters of the value. *)
Lemma column_type_caps_varchar :
  ~ (forall (s : column) (n : Z) (x : string),
        cdtype s = DObject ->
        column_type_csv (NT := decimal_text) s = Returned (VARCHAR n) ->
        In (Str x) (cells s) ->
        (Z.of_nat (char_length x) <= n)%Z).
Proof.
  intros Hclaim.
  assert (Hlen : (Z.of_nat (char_length long_text) <= 65535)%Z).
  { apply (Hclaim lyrics_column 65535%Z long_text).
    - reflexivity.
    - vm_compute. reflexivity.
    - left. reflexivity. }
  vm_compute in Hlen. apply Hlen. reflexivity.
Qed.

Example infer_mysql_type_caps_varchar :
  infer_mysql_type DObject (Some 501%Z) = VARCHAR 500.
Proof. reflexivity. Qed.

(** ** read_sqlite *)

Example csv_beside_database :
  str_replace ".db" ".csv" "spotify_tracks.db" = "spotify_tracks.csv".
Proof. reflexivity. Qed.

(** C9 fails on the code. With the database and its table in place but no
    CSV file beside it, the direct read returns the table and [read_sqlite]
    raises FileNotFoundError. *)
Theorem read_sqlite_needs_csv :
  read_sqlite_table disk_without_csv "spotify_tracks.db" "tracks" = Returned tracks_genre_all /\
  read_sqlite disk_without_csv "spotify_tracks.db" "tracks" = Raised FileNotFoundError.
Proof. split; reflexivity. Qed.

(** ** Batched inserts *)

Lemma forallb_Forall {A} (p : A -> bool) (l : list A) :
  forallb p l = true -> Forall (fun x => p x = true) l.
Proof. intros Hl. apply Forall_forall. apply forallb_forall. exact Hl. Qed.

Lemma firstn_add {A} (n k : nat) (l : list A) :
  firstn (n + k) l = firstn n l ++ firstn k (skipn n l).
Proof.
  revert l. induction n as [|n IH]; intros l; [reflexivity|].
  destruct l as [|x l]; [simpl; rewrite firstn_nil; reflexivity|].
  simpl. rewrite IH. reflexivity.
Qed.

Lemma batch_count_step (len n : nat) :
  0 < n -> 0 < len -> (len + n - 1) / n = S ((len - n + n - 1) / n).
Proof.
  intros Hn Hl. destruct (Nat.le_gt_cases n len) as [Hge|Hlt].
  - replace (len + n - 1) with ((len - n + n - 1) + 1 * n) by lia.
    rewrite Nat.div_add by lia. lia.
  - replace (len - n + n - 1) with (n - 1) by lia.
    rewrite (Nat.div_small (n - 1)) by lia.
    replace (len + n - 1) with ((len - 1) + 1 * n) by lia.
    rewrite Nat.div_add by lia. rewrite Nat.div_small by lia. reflexivity.
Qed.

(** The batches of a non-empty list: its first [n] rows, then the batches
    of the rest. *)
Lemma batches_unfold {A} (n : nat) (l : list A) :
  0 < n -> l <> [] -> batches n l = firstn n l :: batches n (skipn n l).
Proof.
  intros Hn Hl. unfold batches, range_step.
  assert (Hlen : 0 < length l) by (destruct l; [congruence | simpl; lia]).
  rewrite (batch_count_step (length l) n Hn Hlen), length_skipn.
  cbn [seq map]. f_equal.
  - unfold iloc. simpl. rewrite Nat.sub_0_r. reflexivity.
  - rewrite <- seq_shift, !map_map. apply map_ext. intros k. unfold iloc.
    rewrite skipn_skipn. f_equal; [lia|]. f_equal. lia.
Qed.

Lemma batches_nil {A} (n : nat) : batches n (@nil A) = [].
Proof.
  unfold batches, range_step. simpl. destruct n as [|n]; [reflexivity|].
  replace (0 + S n - 1) with n by lia. rewrite Nat.div_small by lia. reflexivity.
Qed.

Lemma batches_concat {A} (n : nat) (l : list A) : 0 < n -> concat (batches n l) = l.
Proof.
  intros Hn. remember (length l) as len eqn:Hlen. revert l Hlen.
  induction len as [len IH] using lt_wf_ind. intros l Hlen.
  destruct l as [|x l]; [rewrite batches_nil; reflexivity|].
  rewrite batches_unfold by (auto; discriminate). cbn [concat].
  rewrite (IH (length (skipn n (x :: l)))); [apply firstn_skipn | | reflexivity].
  rewrite length_skipn. subst len. simpl. lia.
Qed.

Lemma batches_size {A} (n : nat) (l : list A) b : In b (batches n l) -> length b <= n.
Proof.
  unfold batches. intros Hb. apply in_map_iff in Hb as [i [<- _]].
  unfold iloc. rewrite length_firstn. lia.
Qed.

Section BatchedInserts.
Variable insert_ok : list param -> bool.

Lemma insert_rows_accepted rows conn :
  Forall (fun r => insert_ok r = true) rows ->
  insert_rows insert_ok rows conn
  = (mkConnection (stored conn) (pending conn ++ rows) (sent conn ++ map Insert rows), None).
Proof.
  intros Hok. revert conn. induction Hok as [|r rows Hr _ IH]; intros conn; cbn [insert_rows map].
  - rewrite !app_nil_r. destruct conn; reflexivity.
  - unfold execute_insert. rewrite Hr. rewrite IH. cbn [stored pending sent].
    rewrite <- !app_assoc. reflexivity.
Qed.

Lemma insert_rows_refused pre bad post conn :
  Forall (fun r => insert_ok r = true) pre ->
  insert_ok bad = false ->
  insert_rows insert_ok (pre ++ bad :: post) conn
  = (mkConnection (stored conn) (pending conn ++ pre) (sent conn ++ map Insert pre),
     Some MySQLError).
Proof.
  intros Hok Hbad. revert conn. induction Hok as [|r rows Hr _ IH]; intros conn.
  - cbn [app insert_rows map]. unfold execute_insert. rewrite Hbad, !app_nil_r.
    destruct conn; reflexivity.
  - cbn [app insert_rows map]. unfold execute_insert. rewrite Hr, IH. cbn [stored pending sent].
    rewrite <- !app_assoc. reflexivity.
Qed.

Lemma Forall_firstn {A} (P : A -> Prop) n (l : list A) : Forall P l -> Forall P (firstn n l).
Proof.
  intros Hl. apply Forall_forall. intros x Hx. rewrite Forall_forall in Hl.
  apply Hl. eapply firstn_In, Hx.
Qed.

Lemma Forall_skipn {A} (P : A -> Prop) n (l : list A) : Forall P l -> Forall P (skipn n l).
Proof.
  intros Hl. rewrite <- (firstn_skipn n l) in Hl. apply Forall_app in Hl. tauto.
Qed.

(** Without a refusal every batch is committed, in order. *)
Lemma insert_batches_accepted n rows conn :
  0 < n -> pending conn = [] ->
  Forall (fun r => insert_ok r = true) rows ->
  insert_batches insert_ok (batches n rows) conn
  = (mkConnection (stored conn ++ rows) [] (sent conn ++ insert_log (batches n rows)), None).
Proof.
  intros Hn. remember (length rows) as len eqn:Hlen. revert rows conn Hlen.
  induction len as [len IH] using lt_wf_ind. intros rows conn Hlen Hp Hok.
  destruct rows as [|r rows].
  - rewrite batches_nil. cbn [insert_batches insert_log map concat].
    rewrite !app_nil_r. destruct conn; simpl in *; subst; reflexivity.
  - rewrite batches_unfold by (auto; discriminate). cbn [insert_batches].
    rewrite insert_rows_accepted by (apply Forall_firstn, Hok).
    rewrite (IH (length (skipn n (r :: rows))));
      [| rewrite length_skipn; subst len; simpl; lia | reflexivity | reflexivity
       | apply Forall_skipn, Hok].
    unfold commit, insert_log. cbn [stored pending sent map concat].
    rewrite Hp. cbn [app]. rewrite <- !app_assoc. rewrite firstn_skipn.
    reflexivity.
Qed.

(** With a first refusal after [pre], the committed rows are the whole
    batches before it; the rows of the open batch are still pending. *)
Lemma insert_batches_refused n pre bad post conn :
  0 < n -> pending conn = [] ->
  Forall (fun r => insert_ok r = true) pre ->
  insert_ok bad = false ->
  exists part log,
    insert_batches insert_ok (batches n (pre ++ bad :: post)) conn
    = (mkConnection (stored conn ++ firstn (n * (length pre / n)) pre) part log,
       Some MySQLError).
Proof.
  intros Hn. remember (length pre) as len eqn:Hlen. revert pre conn Hlen.
  induction len as [len IH] using lt_wf_ind. intros pre conn Hlen Hp Hok Hbad. subst len.
  rewrite batches_unfold by (auto; destruct pre; discriminate). cbn [insert_batches].
  destruct (Nat.le_gt_cases n (length pre)) as [Hge|Hlt].
  - rewrite firstn_app. replace (n - length pre) with 0 by lia.
    cbn [firstn]. rewrite app_nil_r.
    rewrite insert_rows_accepted by (apply Forall_firstn, Hok).
    rewrite skipn_app. replace (n - length pre) with 0 by lia. cbn [skipn].
    destruct (IH (length (skipn n pre))
                 ltac:(rewrite length_skipn; lia) (skipn n pre)
                 (commit (mkConnection (stored conn) (pending conn ++ firstn n pre)
                                       (sent conn ++ map Insert (firstn n pre))))
                 eq_refl eq_refl (Forall_skipn _ _ _ Hok) Hbad) as [part [log E]].
    exists part, log. rewrite E. cbn [commit stored pending sent]. rewrite Hp. cbn [app].
    f_equal. f_equal. rewrite <- app_assoc. f_equal.
    rewrite length_skipn.
    replace (length pre / n) with (S ((length pre - n) / n)).
    + replace (n * S ((length pre - n) / n)) with (n + n * ((length pre - n) / n)) by lia.
      rewrite firstn_add. reflexivity.
    + replace (length pre) with ((length pre - n) + 1 * n) at 2 by lia.
      rewrite Nat.div_add by lia. lia.
  - rewrite firstn_app. replace (firstn n pre) with pre by (symmetry; apply firstn_all2; lia).
    destruct (n - length pre) as [|k] eqn:Ek; [lia|]. cbn [firstn].
    rewrite insert_rows_refused by assumption.
    eexists _, _. f_equal. f_equal. rewrite Nat.div_small by lia.
    rewrite Nat.mul_0_r. cbn [firstn]. rewrite app_nil_r. reflexivity.
Qed.

End BatchedInserts.

Section LoadTable.
Variable insert_ok : list param -> bool.

(** C6. [load_csv_to_mysql] and [migrate_to_mysql] are [load_table] at
    their column types and row encodings. Once the table is created, the
    rows go out in batches of 1000, each followed by a commit. Without a
    refusal all rows end up stored. At the first refused row the open batch
    is rolled back and the error raised again, while the rows of the whole
    batches before it stay stored: the load is not all-or-nothing. *)
Theorem load_table_commits_batch_by_batch
    (column_type : column -> outcome mysql_type) (values_of : list cell -> list param)
    (df : frame) (conn : connection) (table : string) (defs : list string) :
  col_defs column_type df = Returned defs ->
  let rs := map values_of (rows df) in
  let created :=
    commit (execute_create (create_table_sql table defs) (commit (execute_drop table conn))) in
  batch_size = 1000 /\
  concat (batches batch_size rs) = rs /\
  (forall b, In b (batches batch_size rs) -> length b <= 1000) /\
  (Forall (fun r => insert_ok r = true) rs ->
   load_table insert_ok column_type values_of df conn table
   = (mkConnection rs [] (sent created ++ insert_log (batches batch_size rs)), Returned tt)) /\
  (forall pre bad post,
      rs = pre ++ bad :: post ->
      Forall (fun r => insert_ok r = true) pre ->
      insert_ok bad = false ->
      exists log,
        load_table insert_ok column_type values_of df conn table
        = (mkConnection (firstn (1000 * (length pre / 1000)) pre) [] (log ++ [Rollback]),
           Raised MySQLError)).
Proof.
  intros Hdefs rs created.
  assert (Hn : 0 < batch_size) by (unfold batch_size; lia).
  split; [reflexivity|]. split; [apply batches_concat, Hn|].
  split; [intros b Hb; apply (batches_size batch_size rs b Hb)|].
  split.
  - intros Hok. unfold load_table. rewrite Hdefs. fold rs. fold created.
    rewrite (insert_batches_accepted insert_ok batch_size rs created Hn eq_refl Hok).
    reflexivity.
  - intros pre bad post Hrs Hok Hbad. unfold load_table. rewrite Hdefs. fold rs. fold created.
    rewrite Hrs.
    destruct (insert_batches_refused insert_ok batch_size pre bad post created
                                     Hn eq_refl Hok Hbad) as [part [log E]].
    rewrite E. exists log. reflexivity.
Qed.

End LoadTable.

(** A thousand and one rows of which the last is refused: the load raises,
    and the first thousand rows are stored all the same. *)
Lemma load_table_commits_batch_by_batch_witness :
  let first_batch := repeat [Value (Str "ok")] 1000 in
  (exists log,
      load_csv_to_mysql (NT := decimal_text) refuses_marked many_tracks fresh_connection "tracks"
      = (mkConnection first_batch [] (log ++ [Rollback]), Raised MySQLError)) /\
  (exists log,
      migrate_to_mysql (NT := decimal_text) refuses_marked many_tracks fresh_connection "tracks"
      = (mkConnection first_batch [] (log ++ [Rollback]), Raised MySQLError)).
Proof.
  intros first_batch. split.
  - destruct (load_table_commits_batch_by_batch refuses_marked
                (column_type_csv (NT := decimal_text)) values_csv
                many_tracks fresh_connection "tracks" ["`track_id` VARCHAR(255)"] eq_refl)
      as [_ [_ [_ [_ Hrefused]]]].
    apply (Hrefused first_batch [Value (Str "refused")] []).
    + vm_compute. reflexivity.
    + apply forallb_Forall. vm_compute. reflexivity.
    + reflexivity.
  - destruct (load_table_commits_batch_by_batch refuses_marked
                (column_type_migrate (NT := decimal_text)) values_raw
                many_tracks fresh_connection "tracks" ["`track_id` VARCHAR(50)"] eq_refl)
      as [_ [_ [_ [_ Hrefused]]]].
    apply (Hrefused first_batch [Value (Str "refused")] []).
    + vm_compute. reflexivity.
    + apply forallb_Forall. vm_compute. reflexivity.
    + reflexivity.
Defined.

(* ================================================================== *)
(** * Part III: further properties of the code *)
(* ================================================================== *)

(** ** clean_data: schema and shape *)

Lemma columns_drop_columns names df :
  columns (drop_columns names df)
  = List.filter (fun n => negb (mem_str n names)) (columns df).
Proof.
  unfold columns, drop_columns. induction df as [|c df IH]; [reflexivity|].
  cbn [List.filter map]. destruct (mem_str (cname c) names); cbn [negb map]; rewrite IH; reflexivity.
Qed.

Lemma filter_absent_name (n : string) (l : list string) :
  mem_str n l = false -> List.filter (fun x => negb (String.eqb x n)) l = l.
Proof.
  unfold mem_str. induction l as [|x l IH]; [reflexivity|]. cbn [existsb List.filter].
  rewrite (String.eqb_sym n x). destruct (String.eqb x n); [discriminate|].
  cbn [orb negb]. intros Hl. rewrite IH by exact Hl. reflexivity.
Qed.

Lemma columns_drop_unnamed df :
  columns (drop_unnamed df)
  = List.filter (fun n => negb (String.eqb n "Unnamed: 0")) (columns df).
Proof.
  unfold drop_unnamed. destruct (has_col "Unnamed: 0" df) eqn:E.
  - rewrite columns_drop_columns. apply List.filter_ext. intros n.
    unfold mem_str. cbn [existsb]. rewrite orb_false_r. reflexivity.
  - symmetry. apply filter_absent_name. exact E.
Qed.

Lemma columns_remove_duplicates df : columns (remove_duplicates df) = columns df.
Proof.
  unfold remove_duplicates, drop_duplicates_subset, drop_duplicates.
  destruct (has_col "track_id" df); [destruct (get_col "track_id" df)|];
    try apply columns_select_rows; reflexivity.
Qed.

Lemma rectangular_uniform df : rectangular df <-> uniform (len df) df.
Proof. reflexivity. Qed.

Lemma uniform_len n df : uniform n df -> df <> [] -> len df = n.
Proof.
  intros Hu Hne. destruct df as [|c df]; [congruence|].
  inversion Hu as [|? ? Hc _]. exact Hc.
Qed.

Lemma uniform_rectangular n df : uniform n df -> rectangular df.
Proof.
  intros Hu. destruct df as [|c df]; [constructor|].
  apply rectangular_uniform. rewrite (uniform_len n) by (auto; discriminate). exact Hu.
Qed.

Lemma uniform_drop_columns n names df : uniform n df -> uniform n (drop_columns names df).
Proof.
  unfold uniform, drop_columns. intros Hu. apply Forall_forall. intros c Hc.
  apply filter_In in Hc as [Hc _]. rewrite Forall_forall in Hu. apply Hu, Hc.
Qed.

Lemma uniform_set_col n name s df :
  uniform n df -> length (cells s) = n -> has_col name df = true ->
  uniform n (set_col name s df).
Proof.
  unfold uniform, has_col, columns, mem_str. induction df as [|c df IH]; [discriminate|].
  intros Hu Hs Hin. apply Forall_cons_iff in Hu as [Hc Hu']. cbn [set_col].
  destruct (String.eqb name (cname c)) eqn:E.
  - constructor; [exact Hs | exact Hu'].
  - constructor; [exact Hc|]. apply IH; [exact Hu' | exact Hs|].
    cbn [map existsb] in Hin. rewrite E in Hin. exact Hin.
Qed.

Lemma uniform_get_col n name df s : uniform n df -> get_col name df = Some s -> length (cells s) = n.
Proof.
  unfold uniform, get_col. intros Hu Hs. apply find_some in Hs as [Hs _].
  rewrite Forall_forall in Hu. apply Hu, Hs.
Qed.

Lemma uniform_update_loop n f names df :
  (forall s, length (cells (f s)) = length (cells s)) ->
  uniform n df -> uniform n (fold_left (fun d col => update_col col f d) names df).
Proof.
  intros Hf. revert df. induction names as [|m names IH]; intros df Hu; [exact Hu|].
  cbn [fold_left]. apply IH. unfold update_col.
  destruct (get_col m df) as [s|] eqn:G; [|exact Hu].
  apply uniform_set_col; [exact Hu | | apply has_col_get_col; eauto].
  rewrite Hf. apply (uniform_get_col n m df s Hu G).
Qed.

Lemma uniform_select_rows n mask df :
  uniform n df -> length mask = n -> uniform (count_true mask) (select_rows mask df).
Proof.
  unfold uniform, select_rows. intros Hu Hm. apply Forall_map.
  eapply Forall_impl; [|exact Hu]. simpl. intros c Hc. apply select_length. congruence.
Qed.

Lemma duplicated_from_length {A} (eqb : A -> A -> bool) (l seen : list A) :
  length (duplicated_from eqb seen l) = length l.
Proof.
  revert seen. induction l as [|x l IH]; intros seen; [reflexivity|].
  cbn [duplicated_from length]. rewrite IH. reflexivity.
Qed.

Lemma count_true_le (l : list bool) : count_true l <= length l.
Proof. unfold count_true. apply List.filter_length_le. Qed.

(** What [remove_duplicates] keeps, as one mask over the rows. *)
Lemma remove_duplicates_mask n df :
  uniform n df ->
  exists mask, length mask = n /\ remove_duplicates df = select_rows mask df.
Proof.
  intros Hu. unfold remove_duplicates, drop_duplicates_subset, drop_duplicates.
  destruct (has_col "track_id" df) eqn:E.
  - apply has_col_get_col in E as [s G]. rewrite G.
    exists (map negb (duplicated cell_eqb (cells s))). split; [|reflexivity].
    unfold duplicated. rewrite length_map, duplicated_from_length.
    apply (uniform_get_col n _ df s Hu G).
  - destruct df as [|c df].
    + exists (repeat true n). split; [apply repeat_length | reflexivity].
    + exists (map negb (duplicated_rows (c :: df))). split; [|reflexivity].
      unfold duplicated_rows, duplicated, rows.
      rewrite length_map, duplicated_from_length, length_map, length_seq.
      apply (uniform_len n); [exact Hu | discriminate].
Qed.

Section CleanDataShape.
Context {NT : NumericText}.

Lemma to_numeric_length s : length (cells (to_numeric s)) = length (cells s).
Proof.
  unfold to_numeric. destruct (is_numeric_dtype (cdtype s)); [reflexivity|].
  cbn [cells]. apply length_map.
Qed.

Lemma fillna_num_length m s : length (cells (fillna_num m s)) = length (cells s).
Proof. destruct m; [cbn [fillna_num cells]; apply length_map | reflexivity]. Qed.

Lemma coerce_and_impute_length s : length (cells (coerce_and_impute s)) = length (cells s).
Proof.
  unfold coerce_and_impute. destruct (median (to_numeric s));
    [rewrite fillna_num_length|]; apply to_numeric_length.
Qed.

Lemma ensure_numeric_length s : length (cells (ensure_numeric s)) = length (cells s).
Proof.
  unfold ensure_numeric. destruct (isnull_any (to_numeric s));
    [rewrite fillna_num_length|]; apply to_numeric_length.
Qed.

(** The cleaned table has the columns of the input in their order, without
    'Unnamed: 0'; no step adds, renames or reorders a column. *)
Theorem clean_data_columns (df : frame) :
  columns (clean_data df)
  = List.filter (fun n => negb (String.eqb n "Unnamed: 0")) (columns df).
Proof.
  unfold clean_data, ensure_audio_features, coerce_candidates, fill_text.
  rewrite columns_update_loop, columns_remove_duplicates, !columns_update_loop.
  apply columns_drop_unnamed.
Qed.

(** Cleaning a rectangular table gives a rectangular table with at most as
    many rows. *)
Theorem clean_data_rectangular (df : frame) :
  rectangular df ->
  rectangular (clean_data df) /\ len (clean_data df) <= len df.
Proof.
  intros Hr. apply rectangular_uniform in Hr. set (n := len df) in *.
  assert (H2 : uniform n (coerce_candidates (fill_text (drop_unnamed df)))).
  { unfold coerce_candidates, fill_text.
    apply uniform_update_loop; [apply coerce_and_impute_length|].
    apply uniform_update_loop; [intros s; cbn [fillna_text cells]; apply length_map|].
    unfold drop_unnamed. destruct (has_col "Unnamed: 0" df); [apply uniform_drop_columns|]; exact Hr. }
  destruct (remove_duplicates_mask n _ H2) as [mask [Hm E]].
  assert (H4 : uniform (count_true mask) (clean_data df)).
  { unfold clean_data, ensure_audio_features.
    apply uniform_update_loop; [apply ensure_numeric_length|].
    rewrite E. apply (uniform_select_rows n); assumption. }
  split; [apply (uniform_rectangular (count_true mask)), H4|].
  destruct (clean_data df) as [|c d] eqn:Ec; [simpl; lia|].
  rewrite (uniform_len _ _ H4) by discriminate.
  rewrite <- Hm. apply count_true_le.
Qed.

End CleanDataShape.

Lemma clean_data_rectangular_witness :
  rectangular (clean_data (NT := decimal_text) tracks_raw) /\
  len (clean_data (NT := decimal_text) tracks_raw) <= 4.
Proof.
  apply (clean_data_rectangular (NT := decimal_text) tracks_raw).
  unfold rectangular, tracks_raw. repeat constructor.
Defined.

(** ** clean_data: text columns and the fifth step *)

Lemma existsb_isna_fill_text v l : existsb isna (map (fill_cell (Str v)) l) = false.
Proof. apply existsb_isna_fill. reflexivity. Qed.

Lemma text_columns_NoDup : NoDup text_columns.
Proof. unfold text_columns. repeat constructor; simpl; intuition discriminate. Qed.

Lemma text_columns_not_declared c : In c text_columns -> ~ In c declared_numeric.
Proof.
  unfold text_columns, declared_numeric. simpl.
  intros Hc Hd. repeat (destruct Hc as [<-|Hc]; [intuition discriminate|]). exact Hc.
Qed.

Lemma text_columns_not_audio c : In c text_columns -> ~ In c audio_features.
Proof.
  intros Hc Ha. apply (text_columns_not_declared c Hc). apply audio_features_declared, Ha.
Qed.

Lemma text_columns_not_unnamed c : In c text_columns -> c <> "Unnamed: 0".
Proof.
  unfold text_columns. simpl. intros Hc E. subst.
  repeat (destruct Hc as [Hc|Hc]; [discriminate|]). exact Hc.
Qed.

Lemma set_col_same n s df : get_col n df = Some s -> set_col n s df = df.
Proof.
  induction df as [|c df IH]; [discriminate|]. rewrite get_col_cons. cbn [set_col].
  destruct (String.eqb_spec n (cname c)) as [E|E].
  - intros Hs. inversion Hs; subst. destruct s; reflexivity.
  - intros Hs. rewrite IH by exact Hs. reflexivity.
Qed.

Lemma update_loop_fixed f names df :
  (forall a s, In a names -> get_col a df = Some s -> f s = s) ->
  fold_left (fun d col => update_col col f d) names df = df.
Proof.
  induction names as [|m names IH]; intros Hf; [reflexivity|]. cbn [fold_left].
  assert (E : update_col m f df = df).
  { unfold update_col. destruct (get_col m df) as [s|] eqn:G; [|reflexivity].
    rewrite (Hf m s) by (auto; left; reflexivity). apply set_col_same, G. }
  rewrite E. apply IH. intros a s Ha. apply Hf. right. exact Ha.
Qed.

(** Columns of a table after [select_rows], read backwards. *)
Lemma get_col_remove_duplicates_inv n df s' :
  get_col n (remove_duplicates df) = Some s' ->
  exists s mask, get_col n df = Some s /\
                 s' = mkColumn (cname s) (cdtype s) (select mask (cells s)).
Proof.
  intros Hs'. destruct (get_col n df) as [s|] eqn:G.
  - destruct (get_col_remove_duplicates n df s G) as [mask E].
    exists s, mask. split; [reflexivity | congruence].
  - apply has_col_false_get_col in G. unfold has_col in G.
    rewrite <- columns_remove_duplicates in G. apply has_col_false_get_col in G. congruence.
Qed.

Lemma get_col_update_loop_inv f names n df s' :
  (forall c, cname (f c) = cname c) ->
  NoDup names -> In n names ->
  get_col n (fold_left (fun d col => update_col col f d) names df) = Some s' ->
  exists s, get_col n df = Some s /\ s' = f s.
Proof.
  intros Hf Hnd Hin Hs'. destruct (get_col n df) as [s|] eqn:G.
  - exists s. split; [reflexivity|].
    rewrite (get_col_update_loop_once f names n df s Hf Hnd Hin G) in Hs'. congruence.
  - apply has_col_false_get_col in G. unfold has_col in G.
    rewrite <- (columns_update_loop f names df) in G.
    apply has_col_false_get_col in G. congruence.
Qed.

Section CleanDataSteps.
Context {NT : NumericText}.

(** Step 3 is done with a column unless it leaves a gap beside a number,
    which takes coerced values without a median. *)
Lemma coerce_and_impute_settled s :
  (isnull_any (to_numeric s) = true -> numbers_of (cells (to_numeric s)) <> [] ->
   median (to_numeric s) <> None) ->
  settled (coerce_and_impute s).
Proof.
  intros Hm. split; [apply coerce_and_impute_dtype|]. unfold coerce_and_impute.
  destruct (median (to_numeric s)) as [m|] eqn:E.
  - left. unfold isnull_any. cbn [fillna_num cells].
    apply existsb_isna_fill, isna_cell_of_number.
  - destruct (isnull_any (to_numeric s)) eqn:En; [|left; reflexivity].
    right. destruct (numbers_of (cells (to_numeric s))) as [|x l] eqn:Enum; [reflexivity|].
    exfalso. apply Hm; [reflexivity | discriminate | reflexivity].
Qed.

Lemma get_col_coerce_candidates_inv n df s' :
  get_col n (coerce_candidates df) = Some s' ->
  exists s, get_col n df = Some s /\
            ((In n (numeric_candidates df) /\ s' = coerce_and_impute s) \/
             (~ In n (numeric_candidates df) /\ s' = s)).
Proof.
  intros Hs'. unfold coerce_candidates in Hs'.
  destruct (in_dec string_dec n (numeric_candidates df)) as [Hin|Hout].
  - destruct (get_col n df) as [s|] eqn:G.
    + exists s. split; [reflexivity|]. left. split; [exact Hin|].
      rewrite (get_col_update_loop_once coerce_and_impute _ n df s
                 coerce_and_impute_name (dedupe_keys_NoDup _) Hin G) in Hs'.
      congruence.
    + apply has_col_false_get_col in G. unfold has_col in G.
      rewrite <- (columns_update_loop coerce_and_impute (numeric_candidates df) df) in G.
      apply has_col_false_get_col in G. congruence.
  - rewrite get_col_update_loop_other in Hs' by exact Hout.
    exists s'. split; [exact Hs'|]. right. split; [exact Hout | reflexivity].
Qed.

(** The fifth step of [clean_data], "ensure audio features are numeric",
    changes nothing when every audio-feature column that has, once coerced,
    both a gap and a number also has a median: the third step has then
    coerced and imputed these columns, and deduplication cannot bring a
    missing value back. *)
Theorem clean_data_fifth_step_redundant (df : frame) :
  (forall a s, In a audio_features -> get_col a df = Some s ->
               isnull_any (to_numeric s) = true ->
               numbers_of (cells (to_numeric s)) <> [] ->
               median (to_numeric s) <> None) ->
  clean_data df = remove_duplicates (coerce_candidates (fill_text (drop_unnamed df))).
Proof.
  intros Hmed. unfold clean_data, ensure_audio_features. apply update_loop_fixed.
  intros a s' Ha Hs'. apply ensure_numeric_settled.
  apply get_col_remove_duplicates_inv in Hs' as [s2 [mask [G2 ->]]].
  apply settled_select.
  apply get_col_coerce_candidates_inv in G2 as [s [G1 [[_ ->]|[Hout _]]]].
  - apply coerce_and_impute_settled. apply (Hmed a s Ha).
    unfold fill_text in G1.
    rewrite get_col_update_loop_other in G1 by (apply audio_features_not_text, Ha).
    rewrite get_col_drop_unnamed in G1 by (apply audio_features_not_unnamed, Ha). exact G1.
  - exfalso. apply Hout, numeric_candidates_In. left. apply audio_features_declared, Ha.
Qed.

(** 'artists', 'album_name' and 'track_name' have no missing value after
    cleaning: a gap is filled with 'Unknown'. The one way out is a column
    that the heuristic then takes for numbers although its coerced values
    have no median. *)
Theorem clean_data_text_never_missing (df : frame) (col : string) (s : column) :
  In col text_columns ->
  get_col col df = Some s ->
  let filled := fillna_text "Unknown" s in
  (is_object_dtype (cdtype filled) = true -> converts_well filled = true ->
   median (to_numeric filled) <> None) ->
  exists s', get_col col (clean_data df) = Some s' /\ isnull_sum s' = 0.
Proof.
  intros Hc Hs filled Hmed. unfold clean_data.
  set (d1 := fill_text (drop_unnamed df)).
  assert (H1 : get_col col d1 = Some filled).
  { unfold d1, fill_text. apply get_col_update_loop_once;
      [reflexivity | apply text_columns_NoDup | exact Hc|].
    rewrite get_col_drop_unnamed by (apply text_columns_not_unnamed, Hc). exact Hs. }
  assert (Hn1 : isnull_any filled = false) by apply existsb_isna_fill_text.
  assert (H2 : exists s2, get_col col (coerce_candidates d1) = Some s2 /\ isnull_any s2 = false).
  { destruct (in_dec string_dec col (numeric_candidates d1)) as [Hin|Hout].
    - exists (coerce_and_impute filled). split.
      + unfold coerce_candidates. apply get_col_update_loop_once;
          [apply coerce_and_impute_name | apply dedupe_keys_NoDup | exact Hin | exact H1].
      + apply coerce_and_impute_complete. right.
        apply numeric_candidates_In in Hin as [Hd|[s0 [G [Ho Hw]]]].
        * exfalso. apply (text_columns_not_declared col Hc Hd).
        * rewrite H1 in G. inversion G; subst s0. apply Hmed; assumption.
    - exists filled. split; [|exact Hn1]. unfold coerce_candidates.
      rewrite get_col_update_loop_other by exact Hout. exact H1. }
  destruct H2 as [s2 [G2 Hn2]].
  destruct (get_col_remove_duplicates _ _ _ G2) as [mask G3].
  eexists. split.
  - unfold ensure_audio_features.
    rewrite get_col_update_loop_other by (apply text_columns_not_audio, Hc). exact G3.
  - apply isnull_sum_0. unfold isnull_any. cbn [cells]. apply select_no_na, Hn2.
Qed.

End CleanDataSteps.

Lemma clean_data_fifth_step_redundant_witness :
  clean_data (NT := decimal_text) tracks_raw
  = remove_duplicates
      (coerce_candidates (NT := decimal_text) (fill_text (drop_unnamed tracks_raw))).
Proof.
  apply (clean_data_fifth_step_redundant (NT := decimal_text) tracks_raw).
  intros a s Ha Hs _ _.
  unfold audio_features in Ha. simpl in Ha.
  repeat (destruct Ha as [<-|Ha]; [vm_compute in Hs; try discriminate Hs|]);
    [|destruct Ha].
  inversion Hs; subst s. vm_compute. discriminate.
Defined.

(** Where the proviso bites: after deduplication the energies -inf, +inf
    and NaN are down to -inf and NaN, now with a median, and the fifth step
    fills the gap the third had to leave. *)
Example clean_data_fifth_step_fills :
  remove_duplicates
    (coerce_candidates (NT := decimal_text) (fill_text (drop_unnamed tracks_with_infinities)))
  = [ mkColumn "track_id" DObject [Str "a"; Str "b"];
      mkColumn "energy" DFloat64 [Inf false; NA] ] /\
  clean_data (NT := decimal_text) tracks_with_infinities
  = [ mkColumn "track_id" DObject [Str "a"; Str "b"];
      mkColumn "energy" DFloat64 [Inf false; Inf false] ].
Proof. split; reflexivity. Qed.

Lemma clean_data_text_never_missing_witness :
  exists s', get_col "artists" (clean_data (NT := decimal_text) tracks_raw) = Some s' /\
             isnull_sum s' = 0.
Proof.
  apply (clean_data_text_never_missing (NT := decimal_text) tracks_raw "artists"
           (mkColumn "artists" DObject [NA; Str "x"; Str "x"; Str "y"])).
  - simpl. tauto.
  - reflexivity.
  - intros _ Hw. vm_compute in Hw. discriminate Hw.
Defined.

(** Where the proviso bites: artists that read as +inf and -inf promote
    the column, the median is NaN, and the third artist is left missing. *)
Example clean_data_text_left_missing :
  clean_data (NT := decimal_text) [mkColumn "artists" DObject [Str "inf"; Str "-inf"; Str "x"]]
  = [mkColumn "artists" DFloat64 [Inf true; Inf false; NA]].
Proof. reflexivity. Qed.

(** ** Deduplication and the quality report *)

Lemma count_true_negb (m : list bool) : count_true (map negb m) + count_true m = length m.
Proof.
  induction m as [|b m IH]; [reflexivity|]. cbn [map]. rewrite !count_true_cons.
  cbn [length]. destruct b; cbn [negb]; lia.
Qed.

Lemma cell_eqb_refl a : cell_eqb a a = true.
Proof.
  destruct a as [|s|q| |b]; simpl; try reflexivity.
  - apply String.eqb_refl.
  - apply Qeq_bool_iff. reflexivity.
  - destruct b; reflexivity.
Qed.

Lemma cell_eqb_trans a b c : cell_eqb a b = true -> cell_eqb b c = true -> cell_eqb a c = true.
Proof.
  destruct a as [|s|p| |x], b as [|t|q| |y], c as [|u|r| |z]; simpl;
    try discriminate; try reflexivity.
  - intros E1 E2. apply String.eqb_eq in E1, E2. subst. apply String.eqb_refl.
  - intros E1 E2. apply Qeq_bool_iff in E1, E2. apply Qeq_bool_iff.
    rewrite E1. exact E2.
  - destruct x, y, z; simpl; congruence.
Qed.

(** Every entry is matched by a kept entry or by one seen before. *)
Lemma keep_first_covers (l seen : list cell) x :
  In x l ->
  (exists y, In y seen /\ cell_eqb y x = true) \/
  (exists y, In y (select (map negb (duplicated_from cell_eqb seen l)) l) /\ cell_eqb y x = true).
Proof.
  revert seen. induction l as [|z l IH]; intros seen Hx; [destruct Hx|].
  cbn [duplicated_from map select].
  destruct (existsb (fun y => cell_eqb y z) seen) eqn:E; cbn [negb].
  - apply existsb_exists in E as [y0 [Hy0 Ey0]]. destruct Hx as [->|Hx].
    + left. eauto.
    + destruct (IH (seen ++ [z]) Hx) as [[y [Hy Ey]]|Hk]; [|right; exact Hk].
      left. apply in_app_or in Hy as [Hy|[<-|[]]]; [eauto|].
      exists y0. split; [exact Hy0 | apply (cell_eqb_trans _ _ _ Ey0 Ey)].
  - destruct Hx as [->|Hx].
    + right. exists x. split; [left; reflexivity | apply cell_eqb_refl].
    + destruct (IH (seen ++ [z]) Hx) as [[y [Hy Ey]]|[y [Hy Ey]]].
      * apply in_app_or in Hy as [Hy|[<-|[]]]; [left; eauto|].
        right. exists z. split; [left; reflexivity | exact Ey].
      * right. exists y. split; [right; exact Hy | exact Ey].
Qed.

Lemma duplicated_of_distinct {A} (eqb : A -> A -> bool) (l seen : list A) :
  Forall (fun b => forall a, In a seen -> eqb a b = false) l ->
  ForallOrdPairs (fun a b => eqb a b = false) l ->
  count_true (duplicated_from eqb seen l) = 0.
Proof.
  revert seen. induction l as [|x l IH]; intros seen Hs Hd; [reflexivity|].
  cbn [duplicated_from]. rewrite count_true_cons.
  apply Forall_cons_iff in Hs as [Hx Hs]. inversion Hd as [|? ? Hxl Hd']; subst.
  assert (E : existsb (fun y => eqb y x) seen = false).
  { destruct (existsb (fun y => eqb y x) seen) eqn:E; [|reflexivity].
    apply existsb_exists in E as [y [Hy Ey]]. rewrite (Hx y Hy) in Ey. discriminate. }
  rewrite E. cbn [Nat.add]. apply IH; [|exact Hd'].
  rewrite Forall_forall in Hs, Hxl |- *. intros b Hb a Ha.
  apply in_app_or in Ha as [Ha|[<-|[]]]; [apply (Hs b Hb a Ha) | apply (Hxl b Hb)].
Qed.

Lemma duplicated_keep_first {A} (eqb : A -> A -> bool) (l : list A) :
  count_true (duplicated eqb (select (map negb (duplicated eqb l)) l)) = 0.
Proof.
  unfold duplicated. apply duplicated_of_distinct.
  - apply Forall_forall. intros b _ a [].
  - apply keep_first_distinct.
Qed.

(** Deduplication by 'track_id' loses no identifier: each one of the input
    still occurs in the output, which keeps the first row of each. *)
Theorem drop_duplicates_keeps_every_id (df : frame) (s : column) (x : cell) :
  get_col "track_id" df = Some s ->
  In x (cells s) ->
  exists s' y,
    get_col "track_id" (remove_duplicates df) = Some s' /\
    In y (cells s') /\ cell_eqb y x = true /\
    (forall z, In z (cells s') -> In z (cells s)) /\
    hd_error (cells s') = hd_error (cells s).
Proof.
  intros Hs Hx.
  assert (Hh : has_col "track_id" df = true) by (apply has_col_get_col; eauto).
  unfold remove_duplicates, drop_duplicates_subset. rewrite Hh, Hs, get_col_select_rows, Hs.
  cbn [option_map].
  destruct (keep_first_covers (cells s) [] x Hx) as [[y [[] _]]|[y [Hy Ey]]].
  eexists _, y. split; [reflexivity|]. cbn [cells].
  split; [exact Hy|]. split; [exact Ey|]. split; [intros z; apply select_In|].
  unfold duplicated. destruct (cells s); reflexivity.
Qed.

Lemma drop_duplicates_keeps_every_id_witness :
  exists s' y,
    get_col "track_id" (remove_duplicates tracks_with_note) = Some s' /\
    In y (cells s') /\ cell_eqb y (Str "a") = true /\
    (forall z, In z (cells s') -> In z [Str "a"; Str "a"; Str "a"; Str "b"]) /\
    hd_error (cells s') = Some (Str "a").
Proof.
  apply (drop_duplicates_keeps_every_id tracks_with_note
           (mkColumn "track_id" DObject [Str "a"; Str "a"; Str "a"; Str "b"]) (Str "a")).
  - reflexivity.
  - left. reflexivity.
Defined.

(** The rows that deduplication by 'track_id' removes are as many as the
    report counts as duplicate track_ids. *)
Theorem removed_rows_are_duplicate_tracks (df : frame) :
  rectangular df ->
  has_col "track_id" df = true ->
  len (remove_duplicates df) + duplicate_tracks (validate_cleaned_data df) = len df.
Proof.
  intros Hr Hh. apply has_col_get_col in Hh as Hs. destruct Hs as [s Hs].
  unfold validate_cleaned_data. cbn [duplicate_tracks]. rewrite Hs.
  unfold remove_duplicates, drop_duplicates_subset. rewrite Hh, Hs.
  assert (Hlen : length (cells s) = len df) by (apply (rectangular_get_col _ _ _ Hr Hs)).
  rewrite len_select_rows.
  - rewrite count_true_negb. unfold duplicated. rewrite duplicated_from_length. exact Hlen.
  - exact Hr.
  - unfold duplicated. rewrite length_map, duplicated_from_length. exact Hlen.
  - intros E. subst. discriminate Hs.
Qed.

Lemma removed_rows_are_duplicate_tracks_witness :
  len (remove_duplicates tracks_with_note)
  + duplicate_tracks (validate_cleaned_data tracks_with_note) = 4.
Proof.
  apply (removed_rows_are_duplicate_tracks tracks_with_note).
  - unfold rectangular, tracks_with_note. repeat constructor.
  - reflexivity.
Defined.

(** ** The report on a cleaned table *)

(** Among entries no two of which are equal, at most one matches a given
    entry; so at most one is NaN and at most one is None. *)
Lemma distinct_at_most_one (v : cell) (l : list cell) :
  ForallOrdPairs (fun a b => cell_eqb a b = false) l ->
  length (List.filter (cell_eqb v) l) <= 1.
Proof.
  induction 1 as [|a l Ha _ IH]; [simpl; lia|]. cbn [List.filter].
  destruct (cell_eqb v a) eqn:Ea; [|exact IH]. cbn [length].
  assert (E : List.filter (cell_eqb v) l = []).
  { rewrite Forall_forall in Ha. clear IH. induction l as [|b l IHl]; [reflexivity|].
    cbn [List.filter]. destruct (cell_eqb v b) eqn:Eb.
    - assert (Eab : cell_eqb a b = true).
      { apply (cell_eqb_trans a v b); [rewrite cell_eqb_sym; exact Ea | exact Eb]. }
      rewrite (Ha b (or_introl eq_refl)) in Eab. discriminate Eab.
    - apply IHl. intros x Hx. apply Ha. right. exact Hx. }
  rewrite E. simpl. lia.
Qed.

Lemma filter_isna_split (l : list cell) :
  length (List.filter isna l)
  = length (List.filter (cell_eqb NA) l) + length (List.filter (cell_eqb PyNone) l).
Proof.
  induction l as [|c l IH]; [reflexivity|]. cbn [List.filter].
  destruct c as [|s|q| |b]; cbn [isna cell_eqb length]; lia.
Qed.

Lemma distinct_at_most_two_missing (l : list cell) :
  ForallOrdPairs (fun a b => cell_eqb a b = false) l -> length (List.filter isna l) <= 2.
Proof.
  intros Hd. rewrite filter_isna_split.
  pose proof (distinct_at_most_one NA l Hd). pose proof (distinct_at_most_one PyNone l Hd). lia.
Qed.

Lemma filter_none {A} (p : A -> bool) (l : list A) :
  (forall x, In x l -> p x = false) -> List.filter p l = [].
Proof.
  induction l as [|x l IH]; intros Hp; [reflexivity|]. cbn [List.filter].
  rewrite (Hp x (or_introl eq_refl)). apply IH. intros y Hy. apply Hp. right. exact Hy.
Qed.

Lemma validated_audio_declared a : In a validated_audio_features -> In a declared_numeric.
Proof. unfold validated_audio_features, declared_numeric. simpl. intuition. Qed.

Section CleanThenValidate.
Context {NT : NumericText}.

Lemma cleaned_track_id df s' :
  get_col "track_id" (clean_data df) = Some s' ->
  count_true (duplicated cell_eqb (cells s')) = 0 /\ isnull_sum s' <= 2.
Proof.
  unfold clean_data, ensure_audio_features.
  rewrite get_col_update_loop_other
    by (unfold audio_features; simpl; intuition discriminate).
  set (d2 := coerce_candidates (fill_text (drop_unnamed df))).
  unfold remove_duplicates, drop_duplicates_subset.
  destruct (has_col "track_id" d2) eqn:Hh.
  - apply has_col_get_col in Hh as [s2 G2]. rewrite G2, get_col_select_rows, G2.
    cbn [option_map]. intros E. inversion E; subst s'. cbn [cells]. unfold isnull_sum. cbn [cells].
    split; [apply duplicated_keep_first|].
    apply distinct_at_most_two_missing. apply keep_first_distinct.
  - intros E. unfold drop_duplicates in E. rewrite get_col_select_rows in E.
    apply has_col_false_get_col in Hh. rewrite Hh in E. discriminate E.
Qed.

Lemma cleaned_declared_numeric df a s' :
  In a declared_numeric ->
  get_col a (clean_data df) = Some s' -> is_numeric_dtype (cdtype s') = true.
Proof.
  intros Ha. unfold clean_data, ensure_audio_features. intros Hs'.
  assert (Hstep : forall s3, get_col a (remove_duplicates (coerce_candidates
                                          (fill_text (drop_unnamed df)))) = Some s3 ->
                             is_numeric_dtype (cdtype s3) = true).
  { intros s3 G3. apply get_col_remove_duplicates_inv in G3 as [s2 [mask [G2 ->]]].
    cbn [cdtype].
    apply get_col_coerce_candidates_inv in G2 as [s [_ [[_ ->]|[Hout _]]]].
    - apply coerce_and_impute_dtype.
    - exfalso. apply Hout, numeric_candidates_In. left. exact Ha. }
  destruct (in_dec string_dec a audio_features) as [Hin|Hout].
  - apply (get_col_update_loop_inv ensure_numeric audio_features a _ s'
             ensure_numeric_name audio_features_NoDup Hin) in Hs' as [s3 [_ ->]].
    apply ensure_numeric_dtype.
  - rewrite get_col_update_loop_other in Hs' by exact Hout. apply (Hstep s' Hs').
Qed.

Lemma cleaned_without_unnamed df : has_col "Unnamed: 0" (clean_data df) = false.
Proof.
  unfold clean_data, ensure_audio_features, coerce_candidates, fill_text, has_col.
  rewrite columns_update_loop, columns_remove_duplicates, !columns_update_loop.
  fold (has_col "Unnamed: 0" (drop_unnamed df)).
  apply has_col_false_get_col, get_col_drop_unnamed_gone.
Qed.

(** One check of a critical column adds nothing or one warning about that
    column, with the number of its missing values. *)
Lemma check_critical_cases df found col :
  check_critical df found col = found \/
  exists s n, get_col col df = Some s /\ isnull_sum s = S n /\
              check_critical df found col = found ++ [missing_issue col (S n)].
Proof.
  unfold check_critical. destruct (get_col col df) as [s|]; [|left; reflexivity].
  destruct (isnull_sum s) as [|n] eqn:E; [left; reflexivity|].
  right. exists s, n. auto.
Qed.

(** The report on the output of [clean_data], as [run_analysis] computes
    it: no duplicate track_id is counted, and the checks for duplicate
    identifiers, audio-feature dtypes and the index column always pass. The
    issues are the pass message alone, or warnings about missing values in
    critical columns; 'track_id' can miss two values at most, a NaN and a
    None. *)
Theorem cleaned_table_report (df : frame) :
  let report := validate_cleaned_data (clean_data df) in
  duplicate_tracks report = 0 /\
  issues report <> [] /\
  Forall (fun issue =>
            issue = passed_issue \/
            (exists n, 1 <= n <= 2 /\ issue = missing_issue "track_id" n) \/
            (exists col n, In col ["artists"; "track_name"; "popularity"] /\
                           1 <= n /\ issue = missing_issue col n))
         (issues report).
Proof.
  intros report. unfold report, validate_cleaned_data. cbn [duplicate_tracks issues].
  set (out := clean_data df).
  set (P := fun issue : string =>
              issue = passed_issue \/
              (exists n, 1 <= n <= 2 /\ issue = missing_issue "track_id" n) \/
              (exists col n, In col ["artists"; "track_name"; "popularity"] /\
                             1 <= n /\ issue = missing_issue col n)).
  assert (Hdup : match get_col "track_id" out with
                 | Some s => count_true (duplicated cell_eqb (cells s))
                 | None => 0
                 end = 0).
  { destruct (get_col "track_id" out) as [s|] eqn:G; [|reflexivity].
    apply (cleaned_track_id df s G). }
  rewrite Hdup. cbn [Nat.ltb Nat.leb].
  assert (Hnum : non_numeric_audio out = []).
  { unfold non_numeric_audio. apply filter_none. intros a Ha.
    destruct (get_col a out) as [s|] eqn:G; [|reflexivity].
    rewrite (cleaned_declared_numeric df a s (validated_audio_declared a Ha) G). reflexivity. }
  pose proof (cleaned_without_unnamed df) as Hun. fold out in Hun. rewrite Hnum, Hun.
  split; [reflexivity|].
  assert (Hid : forall found, Forall P found -> Forall P (check_critical out found "track_id")).
  { intros found Hf.
    destruct (check_critical_cases out found "track_id") as [->|[s [n [G [Hn ->]]]]]; [exact Hf|].
    apply Forall_app. split; [exact Hf|]. constructor; [|constructor].
    right. left. exists (S n). split; [|reflexivity].
    destruct (cleaned_track_id df s G) as [_ Hle]. lia. }
  assert (Hother : forall col found,
             In col ["artists"; "track_name"; "popularity"] ->
             Forall P found -> Forall P (check_critical out found col)).
  { intros col found Hc Hf.
    destruct (check_critical_cases out found col) as [->|[s [n [G [Hn ->]]]]]; [exact Hf|].
    apply Forall_app. split; [exact Hf|]. constructor; [|constructor].
    right. right. exists col, (S n). split; [exact Hc|]. split; [lia | reflexivity]. }
  unfold critical_cols. cbn [fold_left].
  set (found := check_critical out _ "popularity").
  assert (Hfound : Forall P found).
  { unfold found. apply Hother; [simpl; tauto|]. apply Hother; [simpl; tauto|].
    apply Hother; [simpl; tauto|]. apply Hid. constructor. }
  destruct found as [|issue rest].
  - split; [discriminate|]. constructor; [left; reflexivity | constructor].
  - split; [discriminate | exact Hfound].
Qed.

End CleanThenValidate.

(** The report on the cleaned example table. *)
Example cleaned_tracks_raw_report :
  issues (validate_cleaned_data (clean_data (NT := decimal_text) tracks_raw)) = [passed_issue].
Proof. reflexivity. Qed.

(** Two missing identifiers after cleaning: a None and a NaN are two
    values to [drop_duplicates]. *)
Example cleaned_report_two_missing_ids :
  issues (validate_cleaned_data
            (clean_data (NT := decimal_text) [mkColumn "track_id" DObject [PyNone; Str "a"; NA]]))
  = [missing_issue "track_id" 2].
Proof. reflexivity. Qed.

(** ** The MySQL sink: tables without rows, and the VARCHAR lengths *)

Section LoadOutcome.
Context {NT : NumericText}.
Variable insert_ok : list param -> bool.

Lemma col_defs_csv_raises df e :
  col_defs column_type_csv df = Raised e -> e = ValueError.
Proof.
  induction df as [|c df IH]; [discriminate|]. cbn [col_defs].
  destruct (column_type_csv c) as [t|e'] eqn:Ec.
  - destruct (col_defs column_type_csv df) as [defs|e'']; [discriminate|].
    intros E. inversion E; subst. apply IH. reflexivity.
  - intros E. inversion E; subst. unfold column_type_csv in Ec.
    destruct (cdtype c); try discriminate Ec.
    destruct (max_str_len c); [discriminate Ec | inversion Ec; reflexivity].
Qed.

Lemma col_defs_migrate_raises df e :
  col_defs column_type_migrate df = Raised e -> e = MySQLError.
Proof.
  induction df as [|c df IH]; [discriminate|]. cbn [col_defs].
  destruct (column_type_migrate c) as [t|e'] eqn:Ec.
  - destruct (col_defs column_type_migrate df) as [defs|e'']; [discriminate|].
    intros E. inversion E; subst. apply IH. reflexivity.
  - intros E. inversion E; subst. unfold column_type_migrate in Ec.
    destruct (cdtype c); try discriminate Ec.
    destruct (max_str_len c); [discriminate Ec | inversion Ec; reflexivity].
Qed.

Lemma col_defs_empty_text (column_type : column -> outcome mysql_type) df c e :
  In c df -> column_type c = Raised e -> exists e', col_defs column_type df = Raised e'.
Proof.
  intros Hc Ec. induction df as [|c0 df IH]; [destruct Hc|]. cbn [col_defs].
  destruct Hc as [->|Hc].
  - rewrite Ec. eauto.
  - destruct (column_type c0); [|eauto].
    destruct (IH Hc) as [e' ->]. eauto.
Qed.

(** A table without rows that has a text column, as read from a CSV with
    only a header line: [load_csv_to_mysql] raises ValueError (from
    [int(max_len)]) after dropping the old table, with no rollback and no
    new table; [migrate_to_mysql] fails in CREATE TABLE and rolls back. *)
Theorem load_of_empty_table (df : frame) (conn : connection) (table : string) (c : column) :
  In c df -> cdtype c = DObject -> cells c = [] ->
  load_csv_to_mysql insert_ok df conn table
  = (mkConnection [] [] (sent conn ++ [DropTable table; Commit]), Raised ValueError) /\
  migrate_to_mysql insert_ok df conn table
  = (mkConnection [] [] (sent conn ++ [DropTable table; Commit; Rollback]), Raised MySQLError).
Proof.
  intros Hc Hd Hnil. unfold load_csv_to_mysql, migrate_to_mysql, load_table. split.
  - assert (Ec : column_type_csv c = Raised ValueError).
    { unfold column_type_csv, max_str_len. rewrite Hd, Hnil. reflexivity. }
    destruct (col_defs_empty_text column_type_csv df c _ Hc Ec) as [e' E].
    rewrite E. rewrite (col_defs_csv_raises df e' E).
    unfold commit, execute_drop. cbn [stored pending sent app]. rewrite <- app_assoc. reflexivity.
  - assert (Ec : column_type_migrate c = Raised MySQLError).
    { unfold column_type_migrate, max_str_len. rewrite Hd, Hnil. reflexivity. }
    destruct (col_defs_empty_text column_type_migrate df c _ Hc Ec) as [e' E].
    rewrite E. rewrite (col_defs_migrate_raises df e' E).
    unfold rollback, commit, execute_drop. cbn [stored pending sent app].
    rewrite <- !app_assoc. reflexivity.
Qed.

(** The VARCHAR length declared for a text column. With at least one row
    it lies between 255 and 65535 in [load_csv_to_mysql] and between 50 and
    500 in [migrate_to_mysql]. Without rows no length is declared at all:
    the first raises ValueError, the second writes VARCHAR(nan), which the
    server refuses. [infer_mysql_type] gives a length between 50 and 500
    for every length that is an integer or None. *)
Theorem varchar_length_bounds (s : column) :
  cdtype s = DObject ->
  (cells s <> [] ->
   (exists n, column_type_csv s = Returned (VARCHAR n) /\ (255 <= n <= 65535)%Z) /\
   (exists n, column_type_migrate s = Returned (VARCHAR n) /\ (50 <= n <= 500)%Z)) /\
  (cells s = [] ->
   column_type_csv s = Raised ValueError /\ column_type_migrate s = Raised MySQLError) /\
  (forall max_len : option Z,
      exists n, infer_mysql_type (cdtype s) max_len = VARCHAR n /\ (50 <= n <= 500)%Z).
Proof.
  intros Hd. unfold column_type_csv, column_type_migrate, infer_mysql_type, max_str_len.
  rewrite Hd. split; [|split].
  - intros Hne. destruct (cells s) as [|c l] eqn:E; [congruence|].
    split; eexists; (split; [reflexivity | lia]).
  - intros ->. split; reflexivity.
  - intros [m|]; [destruct (m =? 0)%Z|]; eexists; (split; [reflexivity | lia]).
Qed.

End LoadOutcome.

Lemma load_of_empty_table_witness :
  load_csv_to_mysql (NT := decimal_text) (fun _ => true)
    [mkColumn "track_id" DObject []] (mkConnection [[Value (Str "old")]] [] []) "tracks"
  = (mkConnection [] [] [DropTable "tracks"; Commit], Raised ValueError) /\
  migrate_to_mysql (NT := decimal_text) (fun _ => true)
    [mkColumn "track_id" DObject []] (mkConnection [[Value (Str "old")]] [] []) "tracks"
  = (mkConnection [] [] [DropTable "tracks"; Commit; Rollback], Raised MySQLError).
Proof.
  apply (load_of_empty_table (NT := decimal_text) (fun _ => true)
           [mkColumn "track_id" DObject []] (mkConnection [[Value (Str "old")]] [] [])
           "tracks" (mkColumn "track_id" DObject [])).
  - left. reflexivity.
  - reflexivity.
  - reflexivity.
Defined.

(** The longest artist has six characters: VARCHAR(255) in one loader,
    VARCHAR(50) in the other. *)
Lemma varchar_length_bounds_witness :
  column_type_csv (NT := decimal_text) artists_with_accent = Returned (VARCHAR 255) /\
  column_type_migrate (NT := decimal_text) artists_with_accent = Returned (VARCHAR 50).
Proof.
  destruct (varchar_length_bounds (NT := decimal_text) artists_with_accent eq_refl)
    as [Hrows _].
  destruct Hrows as [[n [E1 _]] [m [E2 _]]]; [discriminate|].
  vm_compute in E1. vm_compute in E2.
  inversion E1; subst n. inversion E2; subst m. split; reflexivity.
Defined.

(** ** The batches *)

(** No batch is empty, and every batch but the last has exactly [n] rows:
    no commit is issued for nothing, and only the last batch can be short. *)
Theorem batches_full_but_last {A : Type} (n : nat) (l : list A) (i : nat) (b : list A) :
  0 < n ->
  nth_error (batches n l) i = Some b ->
  b = firstn n (skipn (i * n) l) /\
  b <> [] /\
  (S i < length (batches n l) -> length b = n).
Proof.
  intros Hn Hb. unfold batches, range_step in *.
  rewrite !nth_error_map in Hb. rewrite length_map, length_map, length_seq.
  destruct (nth_error (seq 0 ((length l + n - 1) / n)) i) as [k|] eqn:Ek; [|discriminate].
  pose proof (nth_error_Some (seq 0 ((length l + n - 1) / n)) i) as Hi.
  rewrite Ek, length_seq in Hi. assert (Hlt : i < (length l + n - 1) / n) by (apply Hi; discriminate).
  rewrite nth_error_nth' with (d := 0) in Ek by (rewrite length_seq; exact Hlt).
  rewrite seq_nth in Ek by exact Hlt. inversion Ek; subst k. clear Ek Hi.
  cbn [option_map] in Hb. inversion Hb; subst b. clear Hb.
  unfold iloc. cbn [Nat.add]. replace (i * n + n - i * n) with n by lia.
  split; [reflexivity|].
  assert (Hceil : (length l + n - 1) / n * n <= length l + n - 1)
    by (rewrite Nat.mul_comm; apply Nat.Div0.mul_div_le).
  assert (Hin : i * n < length l) by nia.
  split.
  - intros E. apply (f_equal (@length A)) in E.
    rewrite length_firstn, length_skipn in E. simpl in E. lia.
  - intros Hnext. rewrite length_firstn, length_skipn.
    assert (S i * n <= length l) by nia. lia.
Qed.

Lemma batches_full_but_last_witness :
  [4; 5; 6] = firstn 3 (skipn (1 * 3) [1; 2; 3; 4; 5; 6; 7]) /\
  [4; 5; 6] <> [] /\
  (2 < length (batches 3 [1; 2; 3; 4; 5; 6; 7]) -> length [4; 5; 6] = 3).
Proof.
  apply (batches_full_but_last 3 [1; 2; 3; 4; 5; 6; 7] 1 [4; 5; 6]).
  - lia.
  - reflexivity.
Defined.

(** ** The deduplication step on its own *)

Lemma has_col_select_rows n mask df : has_col n (select_rows mask df) = has_col n df.
Proof. unfold has_col. rewrite columns_select_rows. reflexivity. Qed.

Lemma select_map {A B} (f : A -> B) (mask : list bool) (l : list A) :
  select mask (map f l) = map f (select mask l).
Proof.
  revert l. induction mask as [|b mask IH]; intros [|x l]; try reflexivity.
  cbn [map select]. destruct b; cbn [map]; rewrite IH; reflexivity.
Qed.

Lemma rows_of_records df : rows df = map (map snd) (records df).
Proof.
  unfold rows, records. rewrite map_map. apply map_ext. intros i.
  unfold row_at, record_at. rewrite map_map. reflexivity.
Qed.

Lemma rows_select_rows n mask df :
  uniform n df -> length mask = n -> rows (select_rows mask df) = select mask (rows df).
Proof.
  intros Hu Hm. rewrite !rows_of_records, records_select_rows, select_map; [reflexivity|].
  subst n. exact Hu.
Qed.

Lemma count_true_zero (m : list bool) : count_true m = 0 -> map negb m = repeat true (length m).
Proof.
  induction m as [|b m IH]; [reflexivity|]. rewrite count_true_cons.
  destruct b; [discriminate|]. cbn [Nat.add map negb length repeat]. intros E. rewrite IH by exact E.
  reflexivity.
Qed.

Lemma select_rows_all n df : uniform n df -> select_rows (repeat true n) df = df.
Proof.
  unfold uniform, select_rows. intros Hu. rewrite <- (map_id df) at 2. apply map_ext_in.
  rewrite Forall_forall in Hu. intros c Hc. rewrite <- (Hu c Hc), select_all.
  destruct c; reflexivity.
Qed.

(** Row selection keeps the number of columns, and with it the way rows
    are compared. *)
Lemma row_equality_select_rows mask df : row_equality (select_rows mask df) = row_equality df.
Proof. destruct df as [|c [|c' df]]; reflexivity. Qed.

(** Without a 'track_id' column the deduplication step, lines 138 to 142,
    leaves no two equal rows. Rows are compared as [df.duplicated()]
    compares them. *)
Theorem drop_duplicates_rows_distinct (df : frame) :
  rectangular df ->
  has_col "track_id" df = false ->
  ForallOrdPairs (fun r1 r2 => row_eqb (row_equality df) r1 r2 = false)
                 (rows (remove_duplicates df)).
Proof.
  intros Hr Hh. apply rectangular_uniform in Hr.
  unfold remove_duplicates, drop_duplicates. rewrite Hh.
  destruct df as [|c0 d0] eqn:Ed; [constructor|]. rewrite <- Ed in *.
  rewrite (rows_select_rows (len df) _ df Hr).
  - apply keep_first_distinct.
  - unfold duplicated_rows, duplicated, rows.
    rewrite length_map, duplicated_from_length, length_map, length_seq. reflexivity.
Qed.

Lemma drop_duplicates_rows_distinct_witness :
  ForallOrdPairs (fun r1 r2 => row_eqb cell_matches r1 r2 = false)
                 (rows (remove_duplicates tracks_without_ids)) /\
  rows (remove_duplicates tracks_without_ids)
  = [[PyNone; Str "b"]; [Str "a"; Str "a"]].
Proof.
  split; [|reflexivity].
  apply (drop_duplicates_rows_distinct tracks_without_ids).
  - unfold rectangular, tracks_without_ids. repeat constructor.
  - reflexivity.
Defined.

(** Deduplicating a deduplicated table removes nothing more, by 'track_id'
    and by whole rows alike. *)
Theorem remove_duplicates_idempotent (df : frame) :
  rectangular df -> remove_duplicates (remove_duplicates df) = remove_duplicates df.
Proof.
  intros Hr. pose proof (proj1 (rectangular_uniform df) Hr) as Hu. clear Hr.
  destruct (has_col "track_id" df) eqn:Hh.
  - apply has_col_get_col in Hh as Hs. destruct Hs as [s Hs].
    set (m := map negb (duplicated cell_eqb (cells s))).
    assert (Hm : length (cells s) = length m).
    { unfold m, duplicated. rewrite length_map, duplicated_from_length. reflexivity. }
    assert (E1 : remove_duplicates df = select_rows m df).
    { unfold remove_duplicates, drop_duplicates_subset. rewrite Hh, Hs. reflexivity. }
    rewrite E1.
    assert (E2 : remove_duplicates (select_rows m df)
                 = select_rows (map negb (duplicated cell_eqb (select m (cells s))))
                               (select_rows m df)).
    { unfold remove_duplicates, drop_duplicates_subset.
      rewrite has_col_select_rows, Hh, get_col_select_rows, Hs. reflexivity. }
    rewrite E2. unfold m at 1.
    rewrite (count_true_zero _ (duplicated_keep_first cell_eqb (cells s))).
    unfold duplicated at 1. rewrite duplicated_from_length. fold m.
    rewrite (select_length m (cells s) Hm).
    apply (select_rows_all (count_true m)). apply (uniform_select_rows (len df)); [exact Hu|].
    rewrite <- Hm. apply (uniform_get_col (len df) _ df s Hu Hs).
  - assert (Hrows : length (rows df) = len df).
    { unfold rows. rewrite length_map, length_seq. reflexivity. }
    set (eqb := row_eqb (row_equality df)).
    set (m := map negb (duplicated eqb (rows df))).
    assert (Hm : length (rows df) = length m).
    { unfold m, duplicated. rewrite length_map, duplicated_from_length. reflexivity. }
    assert (E1 : remove_duplicates df = select_rows m df).
    { unfold remove_duplicates, drop_duplicates. rewrite Hh. reflexivity. }
    rewrite E1.
    assert (E2 : remove_duplicates (select_rows m df)
                 = select_rows (map negb (duplicated eqb (select m (rows df))))
                               (select_rows m df)).
    { unfold remove_duplicates, drop_duplicates, duplicated_rows.
      rewrite has_col_select_rows, Hh, row_equality_select_rows.
      rewrite (rows_select_rows (len df) m df Hu) by congruence. reflexivity. }
    rewrite E2. unfold m at 1.
    rewrite (count_true_zero _ (duplicated_keep_first eqb (rows df))).
    unfold duplicated at 1. rewrite duplicated_from_length. fold m.
    rewrite (select_length m (rows df) Hm).
    apply (select_rows_all (count_true m)).
    apply (uniform_select_rows (len df)); [exact Hu | congruence].
Qed.

Lemma remove_duplicates_idempotent_witness :
  remove_duplicates (remove_duplicates tracks_with_note) = remove_duplicates tracks_with_note /\
  remove_duplicates (remove_duplicates tracks_without_ids) = remove_duplicates tracks_without_ids.
Proof.
  split.
  - apply (remove_duplicates_idempotent tracks_with_note).
    unfold rectangular, tracks_with_note. repeat constructor.
  - apply (remove_duplicates_idempotent tracks_without_ids).
    unfold rectangular, tracks_without_ids. repeat constructor.
Defined.

(** One column, no 'track_id': a None and a NaN are two values, and both
    rows stay. *)
Example drop_duplicates_one_column :
  remove_duplicates [mkColumn "note" DObject [PyNone; NA; PyNone]]
  = [mkColumn "note" DObject [PyNone; NA]].
Proof. reflexivity. Qed.

(** ** The primary artist *)

Lemma split_on_nonempty sep s : split_on sep s <> [].
Proof.
  induction s as [|c s IH]; cbn [split_on]; [discriminate|].
  destruct (Ascii.eqb c sep); [discriminate|]. destruct (split_on sep s); discriminate.
Qed.

Lemma split_on_head_no_sep sep s :
  ~ In sep (list_ascii_of_string (hd EmptyString (split_on sep s))).
Proof.
  induction s as [|c s IH]; cbn [split_on]; [simpl; tauto|].
  destruct (Ascii.eqb_spec c sep) as [E|E]; [simpl; tauto|].
  destruct (split_on sep s) as [|piece pieces]; cbn [hd list_ascii_of_string In] in *.
  - intros [H|[]]. congruence.
  - intros [H|H]; [congruence | exact (IH H)].
Qed.

Lemma split_on_head_whole sep s :
  ~ In sep (list_ascii_of_string s) -> hd EmptyString (split_on sep s) = s.
Proof.
  induction s as [|c s IH]; [reflexivity|]. cbn [split_on list_ascii_of_string In].
  intros Hs. destruct (Ascii.eqb_spec c sep) as [E|E]; [exfalso; apply Hs; left; exact E|].
  assert (IH' : hd EmptyString (split_on sep s) = s) by (apply IH; tauto).
  destruct (split_on sep s) as [|piece pieces] eqn:Ep; [exfalso; apply (split_on_nonempty sep s Ep)|].
  cbn [hd] in *. rewrite IH'. reflexivity.
Qed.

(** Texts and their characters. *)
Lemma chars_nil s : chars s = [] -> s = EmptyString.
Proof.
  destruct s as [|b s]; [reflexivity|]. cbn [chars].
  destruct (chars s); [discriminate|]. destruct (continues s); discriminate.
Qed.

Lemma join_chars s : join (chars s) = s.
Proof.
  induction s as [|b s IH]; [reflexivity|]. cbn [chars].
  destruct (chars s) as [|chunk rest] eqn:E.
  - rewrite (chars_nil s E). reflexivity.
  - destruct (continues s); cbn [join fold_right String.append] in *; rewrite IH; reflexivity.
Qed.

Lemma append_assoc s t u :
  String.append (String.append s t) u = String.append s (String.append t u).
Proof. induction s as [|b s IH]; [reflexivity|]. simpl. rewrite IH. reflexivity. Qed.

Lemma join_app l1 l2 : join (l1 ++ l2) = String.append (join l1) (join l2).
Proof.
  unfold join. induction l1 as [|x l1 IH]; [reflexivity|]. cbn [app fold_right].
  rewrite IH. symmetry. apply append_assoc.
Qed.

Lemma list_ascii_of_string_app s t :
  list_ascii_of_string (String.append s t) = list_ascii_of_string s ++ list_ascii_of_string t.
Proof. induction s as [|b s IH]; [reflexivity|]. simpl. rewrite IH. reflexivity. Qed.

(** The first character starts where the text starts. *)
Lemma first_chunk s chunk rest : chars s = chunk :: rest -> continues chunk = continues s.
Proof.
  destruct s as [|b s]; [discriminate|]. cbn [chars].
  destruct (chars s) as [|chunk' rest']; [|destruct (continues s)];
    intros E; inversion E; reflexivity.
Qed.

(** Every piece [chars] cuts is one character, and every piece but the
    first starts with a byte that opens a character. *)
Lemma chars_pieces s :
  Forall (fun ch => chars ch = [ch]) (chars s) /\
  Forall (fun ch => continues ch = false) (tl (chars s)).
Proof.
  induction s as [|b s [IH1 IH2]]; [split; constructor|]. cbn [chars].
  destruct (chars s) as [|chunk rest] eqn:E; [split; repeat constructor|].
  pose proof (first_chunk s chunk rest E) as Hc.
  apply Forall_cons_iff in IH1 as [Hchunk Hrest]. cbn [tl] in IH2.
  destruct (continues s) eqn:Es.
  - split; [|exact IH2]. constructor; [|exact Hrest].
    cbn [chars]. rewrite Hchunk, Hc. reflexivity.
  - split.
    + constructor; [reflexivity|]. constructor; assumption.
    + cbn [tl]. constructor; assumption.
Qed.

Lemma continues_app s t : s <> EmptyString -> continues (String.append s t) = continues s.
Proof. destruct s; [congruence | reflexivity]. Qed.

Lemma chars_app ch t :
  chars ch = [ch] -> continues t = false -> chars (String.append ch t) = ch :: chars t.
Proof.
  intros Hch Ht. induction ch as [|b r IH]; [discriminate|].
  cbn [String.append chars] in *. destruct r as [|b2 r2].
  - cbn [String.append]. destruct (chars t) as [|c l] eqn:E; [reflexivity|].
    rewrite Ht. reflexivity.
  - assert (Hr : chars (String b2 r2) = [String b2 r2] /\ continues (String b2 r2) = true).
    { destruct (chars (String b2 r2)) as [|c l]; [discriminate|].
      destruct (continues (String b2 r2)); [|discriminate].
      inversion Hch; subst. auto. }
    destruct Hr as [Hr1 Hr2]. rewrite (IH Hr1).
    rewrite continues_app by discriminate. rewrite Hr2. reflexivity.
Qed.

Lemma chars_join l :
  Forall (fun ch => chars ch = [ch]) l ->
  Forall (fun ch => continues ch = false) (tl l) ->
  chars (join l) = l.
Proof.
  induction l as [|ch l IH]; [reflexivity|]. intros Hs Hl.
  apply Forall_cons_iff in Hs as [Hch Hs]. cbn [tl] in Hl. cbn [join fold_right].
  fold (join l). rewrite chars_app; [rewrite IH; [reflexivity | exact Hs|] | exact Hch|].
  - destruct l; [constructor|]. apply Forall_cons_iff in Hl. tauto.
  - destruct l as [|ch' l']; [reflexivity|]. cbn [join fold_right].
    apply Forall_cons_iff in Hl as [Hl _]. apply Forall_cons_iff in Hs as [Hch' _].
    rewrite continues_app; [exact Hl|]. intros E. rewrite E in Hch'. discriminate.
Qed.

(** What [strip] keeps is a stretch of the characters, with no white
    space at either end. *)
Lemma lstrip_chars_suffix l : exists pre, l = pre ++ lstrip_chars l.
Proof.
  induction l as [|ch l [pre IH]]; [exists []; reflexivity|]. cbn [lstrip_chars].
  destruct (is_space ch); [|exists []; reflexivity].
  exists (ch :: pre). cbn [app]. rewrite <- IH. reflexivity.
Qed.

Lemma lstrip_chars_first l ch : hd_error (lstrip_chars l) = Some ch -> is_space ch = false.
Proof.
  induction l as [|c l IH]; [discriminate|]. cbn [lstrip_chars].
  destruct (is_space c) eqn:E; [exact IH|]. intros H. inversion H; subst. exact E.
Qed.

Lemma lstrip_chars_clean l :
  (forall ch, hd_error l = Some ch -> is_space ch = false) -> lstrip_chars l = l.
Proof.
  destruct l as [|c l]; [reflexivity|]. intros H. cbn [lstrip_chars].
  rewrite (H c eq_refl). reflexivity.
Qed.

Lemma strip_chars_middle l : exists pre post, l = pre ++ strip_chars l ++ post.
Proof.
  unfold strip_chars. destruct (lstrip_chars_suffix l) as [pre Hpre].
  destruct (lstrip_chars_suffix (rev (lstrip_chars l))) as [pre2 Hpre2].
  exists pre, (rev pre2). rewrite <- rev_app_distr, <- Hpre2, rev_involutive. exact Hpre.
Qed.

Lemma strip_chars_first l ch : hd_error (strip_chars l) = Some ch -> is_space ch = false.
Proof.
  unfold strip_chars. set (l1 := lstrip_chars l).
  destruct (lstrip_chars_suffix (rev l1)) as [pre2 Hpre2].
  assert (E : l1 = rev (lstrip_chars (rev l1)) ++ rev pre2)
    by (rewrite <- rev_app_distr, <- Hpre2, rev_involutive; reflexivity).
  intros Hh. apply (lstrip_chars_first l). fold l1. rewrite E.
  destruct (rev (lstrip_chars (rev l1))); [discriminate | exact Hh].
Qed.

Lemma strip_chars_last l ch : hd_error (rev (strip_chars l)) = Some ch -> is_space ch = false.
Proof. unfold strip_chars. rewrite rev_involutive. apply lstrip_chars_first. Qed.

Lemma Forall_middle {A} (P : A -> Prop) (pre mid post : list A) :
  Forall P (tl (pre ++ mid ++ post)) -> Forall P (tl mid).
Proof.
  destruct pre as [|x pre]; cbn [app tl].
  - destruct mid as [|y mid]; [constructor|]. cbn [app tl].
    intros H. apply Forall_app in H. tauto.
  - intros H. apply Forall_app in H as [_ H]. apply Forall_app in H as [H _].
    destruct mid as [|y mid]; [constructor|]. apply Forall_cons_iff in H. tauto.
Qed.

Lemma chars_strip s : chars (strip s) = strip_chars (chars s).
Proof.
  unfold strip. destruct (chars_pieces s) as [H1 H2].
  destruct (strip_chars_middle (chars s)) as [pre [post E]].
  apply chars_join.
  - rewrite E in H1. apply Forall_app in H1 as [_ H1]. apply Forall_app in H1. tauto.
  - rewrite E in H2. apply (Forall_middle _ pre _ post H2).
Qed.

Lemma strip_bytes s b :
  In b (list_ascii_of_string (strip s)) -> In b (list_ascii_of_string s).
Proof.
  unfold strip. destruct (strip_chars_middle (chars s)) as [pre [post E]].
  intros Hb. rewrite <- (join_chars s). rewrite E, !join_app, !list_ascii_of_string_app.
  apply in_or_app. right. apply in_or_app. left. exact Hb.
Qed.

Section PrimaryArtistFacts.
Context {NT : NumericText}.

(** The primary artist of an entry: 'Unknown' for a missing one; never
    with a comma in it, never with white space, ASCII or not, as its first
    or last character; and a name that has neither is its own primary
    artist. *)
Theorem primary_artist_clean (c : cell) :
  primary_artist NA = "Unknown" /\
  primary_artist PyNone = "Unknown" /\
  ~ In ","%char (list_ascii_of_string (primary_artist c)) /\
  (forall ch, hd_error (chars (primary_artist c)) = Some ch -> is_space ch = false) /\
  (forall ch, hd_error (rev (chars (primary_artist c))) = Some ch -> is_space ch = false) /\
  (forall name,
      c = Str name ->
      ~ In ","%char (list_ascii_of_string name) ->
      (forall ch, hd_error (chars name) = Some ch -> is_space ch = false) ->
      (forall ch, hd_error (rev (chars name)) = Some ch -> is_space ch = false) ->
      primary_artist c = name).
Proof.
  split; [reflexivity|]. split; [reflexivity|]. unfold primary_artist.
  set (piece := hd EmptyString (split_on ","%char (text_of (fill_cell (Str "Unknown") c)))).
  split; [|split; [|split]].
  - intros Hin. apply strip_bytes in Hin. exact (split_on_head_no_sep _ _ Hin).
  - intros ch. rewrite chars_strip. apply strip_chars_first.
  - intros ch. rewrite chars_strip. apply strip_chars_last.
  - intros name -> Hcomma Hfirst Hlast. unfold piece.
    cbn [fill_cell isna text_of astype_str_cell]. rewrite (split_on_head_whole _ _ Hcomma).
    unfold strip, strip_chars.
    rewrite (lstrip_chars_clean _ Hfirst), (lstrip_chars_clean _ Hlast), rev_involutive.
    apply join_chars.
Qed.

End PrimaryArtistFacts.

(** A no-break space before and after the name goes, as does the space
    before the comma. *)
Lemma primary_artist_clean_witness :
  primary_artist (NT := decimal_text) (Str "  Daft Punk , Pharrell") = "Daft Punk" /\
  primary_artist (NT := decimal_text)
    (Str (String.append (utf8 [194; 160]) (String.append "Adele" (utf8 [194; 160])))) = "Adele" /\
  primary_artist (NT := decimal_text) (Str "Adele") = "Adele".
Proof.
  split; [reflexivity|]. split; [reflexivity|].
  apply (proj2 (proj2 (proj2 (proj2 (proj2
           (primary_artist_clean (NT := decimal_text) (Str "Adele"))))))
           "Adele" eq_refl).
  - simpl. intuition discriminate.
  - intros ch Hch. vm_compute in Hch. inversion Hch. reflexivity.
  - intros ch Hch. vm_compute in Hch. inversion Hch. reflexivity.
Defined.
